(** * Career guidance service: skill matching, resume extraction, chat bridge

    A shallow embedding of [app.py].  Python [str] values are Rocq strings
    whose characters are the code points below 256; [strip], [lower] and
    [split] behave as Python defines them on those code points.  A
    [DataFrame] is the list of its rows in index order; every row carries the
    six columns of the dataset file, and a cell is [None] where pandas holds
    NaN.  Python sets are [gset string]; the order in which a set is iterated
    is left open (a parameter of the functions that iterate one). *)

From Stdlib Require Import ZArith Ascii String.
From stdpp Require Import base list sorting gmap sets strings pretty.

Local Open Scope string_scope.
Local Open Scope nat_scope.
Local Open Scope list_scope.

(** ** Python string primitives *)

Module PyStr.

(** [c.isspace()] on the code points below 256. *)
Definition is_space (c : ascii) : bool :=
  let n := N_of_ascii c in
  ((9 <=? n) && (n <=? 13) || (28 <=? n) && (n <=? 32)
   || (n =? 133) || (n =? 160))%N.

(** [c.lower()] on the code points below 256: A-Z and the accented capitals
    0xC0-0xDE (the multiplication sign 0xD7 apart) move up by 32. *)
Definition is_upper (c : ascii) : bool :=
  let n := N_of_ascii c in
  ((65 <=? n) && (n <=? 90)
   || (192 <=? n) && (n <=? 222) && negb (n =? 215))%N.

Definition lower_char (c : ascii) : ascii :=
  if is_upper c then ascii_of_N (N_of_ascii c + 32) else c.

(** [s.lower()] *)
Fixpoint lower (s : string) : string :=
  match s with
  | EmptyString => EmptyString
  | String c s' => String (lower_char c) (lower s')
  end.

Fixpoint lstrip (s : string) : string :=
  match s with
  | EmptyString => EmptyString
  | String c s' => if is_space c then lstrip s' else s
  end.

Fixpoint rstrip (s : string) : string :=
  match s with
  | EmptyString => EmptyString
  | String c s' =>
      match rstrip s' with
      | EmptyString => if is_space c then EmptyString else String c EmptyString
      | r => String c r
      end
  end.

(** [s.strip()] *)
Definition strip (s : string) : string := rstrip (lstrip s).

(** [s.split(sep)] for a one-character separator: never the empty list,
    empty pieces are kept. *)
Fixpoint split (sep : ascii) (s : string) : list string :=
  match s with
  | EmptyString => [EmptyString]
  | String c s' =>
      if Ascii.eqb c sep then EmptyString :: split sep s'
      else match split sep s' with
           | h :: t => String c h :: t
           | [] => [String c EmptyString]
           end
  end.

(** [sep.join(l)] *)
Fixpoint join (sep : string) (l : list string) : string :=
  match l with
  | [] => EmptyString
  | [x] => x
  | x :: l' => x +:+ sep +:+ join sep l'
  end.

Fixpoint starts_with (s p : string) {struct p} : bool :=
  match p with
  | EmptyString => true
  | String a p' =>
      match s with
      | String b s' => Ascii.eqb a b && starts_with s' p'
      | EmptyString => false
      end
  end.

(** [p in s] on strings: substring containment. *)
Fixpoint contains (s p : string) : bool :=
  starts_with s p ||
  match s with
  | EmptyString => false
  | String _ s' => contains s' p
  end.

(** Truth value of a string: non-empty. *)
Definition truthy (s : string) : bool :=
  match s with EmptyString => false | _ => true end.

End PyStr.

(** ** The dataset *)

(** A cell of the table: [None] is NaN. *)
Abbreviation cell := (option string).

Record Row : Type := mkRow {
  Career_category : cell;
  Skill : cell;
  Interests : cell;
  Hobby : cell;
  Career : cell;
  Recommended_education : cell
}.

Abbreviation DataFrame := (list Row).

Global Instance Row_eq_dec : EqDecision Row.
Proof. solve_decision. Defined.

(** The three skill-bearing columns, in the order the loops visit them. *)
Definition skill_cols : list (Row → cell) := [Skill; Interests; Hobby].

(** The table built when the file cannot be used. *)
Definition mock_df : DataFrame :=
  [ mkRow (Some "Technology") (Some "Programming, AI")
          (Some "Video Games, Robotics") (Some "Coding, Reading")
          (Some "Software Engineer") (Some "Bachelor's in CS");
    mkRow (Some "Healthcare") (Some "Empathy, Biology")
          (Some "Patient Care, Research") (Some "Volunteering, Fitness")
          (Some "Nurse") (Some "BSN");
    mkRow (Some "Education") (Some "Teaching, Communication")
          (Some "Mentoring, Learning") (Some "Tutoring, Public Speaking")
          (Some "High School Teacher") (Some "Master's in Education") ].

(** ** Tokens *)

(** [[s.strip().lower() for s in x.split(",") if s.strip()]] *)
Definition tokens (x : string) : list string :=
  (λ s, PyStr.lower (PyStr.strip s))
    <$> filter (λ s, PyStr.truthy (PyStr.strip s) = true) (PyStr.split "," x).

(** [set(tokens)] *)
Definition token_set (x : string) : gset string := list_to_set (tokens x).

(** ** Python list helpers *)

(** [l[:count]]: a negative count drops that many elements from the end. *)
Definition slice_to {A} (l : list A) (count : Z) : list A :=
  if (0 <=? count)%Z then take (Z.to_nat count) l
  else take (length l - Z.to_nat (- count)) l.

(** [sorted(l, key=key)]: Python's sort is stable, and a stable sort has one
    possible result (see [stable_sort_unique]); it is computed here by
    insertion from the right. *)
Fixpoint insert_by {A} (key : A → Z) (x : A) (l : list A) : list A :=
  match l with
  | [] => [x]
  | y :: l' =>
      if (key x <=? key y)%Z then x :: y :: l' else y :: insert_by key x l'
  end.

Fixpoint sorted {A} (key : A → Z) (l : list A) : list A :=
  match l with
  | [] => []
  | x :: l' => insert_by key x (sorted key l')
  end.

(** ** Skill matcher *)

(** One entry of the list [predict_career_from_skills] returns; the sentinel
    of [analyze_resume] is the same dictionary without its [score] key. *)
Record Result : Type := mkResult {
  career : cell;
  category : cell;
  education : cell;
  score : option nat
}.

Global Instance Result_eq_dec : EqDecision Result.
Proof. solve_decision. Defined.

(** The inner loop over the skill columns: the row's token set. *)
Definition row_skills (row : Row) : gset string :=
  foldl (λ acc col,
           match col row with
           | Some v => acc ∪ token_set v
           | None => acc
           end) ∅ skill_cols.

Definition overlap (q : gset string) (row : Row) : nat :=
  size (q ∩ row_skills row).

(** The loop over [df.iterrows()] that fills [scores]. *)
Definition score_rows (q : gset string) (df : DataFrame) : list (nat * Row) :=
  foldl (λ scores row,
           let o := overlap q row in
           if decide (0 < o) then scores ++ [(o, row)] else scores) [] df.

Definition make_result (p : nat * Row) : Result :=
  {| career := Career p.2;
     category := Career_category p.2;
     education := Recommended_education p.2;
     score := Some p.1 |}.

Definition predict_career_from_skills
    (df : DataFrame) (skills_input : string) (count : Z) : list Result :=
  let skills_input_set := token_set skills_input in
  let scores := score_rows skills_input_set df in
  let scores := sorted (λ x, (- Z.of_nat x.1)%Z) scores in
  make_result <$> slice_to scores count.

(** ** Category view *)

(** The inner loop of [get_skills_for_category]: the present skill cells. *)
Definition present_fields (row : Row) : list string :=
  foldl (λ combined col,
           match col row with
           | Some v => combined ++ [v]
           | None => combined
           end) [] skill_cols.

(** [df['Career_category'].str.lower() == category.lower()] on one row; NaN
    compares unequal to everything.  pandas offers [.str] on a column that
    holds strings: this is the comparison on a table in which at least one
    row has a label; on a table without any label the column is numeric and
    [.str] raises [AttributeError]. *)
Definition category_matches (category : string) (row : Row) : bool :=
  match Career_category row with
  | Some c => bool_decide (PyStr.lower c = PyStr.lower category)
  | None => false
  end.

Definition get_skills_for_category
    (df : DataFrame) (category : string) : list string :=
  let rows := filter (λ row, category_matches category row = true) df in
  foldl (λ suggestions row,
           let combined := present_fields row in
           match combined with
           | [] => suggestions
           | _ => suggestions ++ [PyStr.join ", " combined]
           end) [] rows.

(** ** Known skills and the resume extractor *)

(** [df[["Skill","Interests","Hobby"]].dropna().values.flatten()]: the rows
    with a NaN in any of the three columns are dropped, the cells of the
    others are listed row by row. *)
Definition dropna_flatten (df : DataFrame) : list string :=
  concat (omap (λ row, mapM (λ col : Row → cell, col row) skill_cols) df).

(** The [known_skills] entry of [get_categories_and_skills], before
    [list(set(...))] fixes an order. *)
Definition known_skills (df : DataFrame) : gset string :=
  list_to_set
    (PyStr.strip
       <$> filter (λ s, PyStr.truthy (PyStr.strip s) = true) (dropna_flatten df)).

(** [all_skills_data] of [analyze_resume]: for each skill column, the tokens
    of every cell that is not NaN. *)
Definition all_skills_data (df : DataFrame) : gset string :=
  foldl (λ acc (col : Row → cell),
           foldl (λ acc item, acc ∪ token_set item) acc (omap col df))
        ∅ skill_cols.

(** The body of the loop [for skill in all_skills_data]. *)
Definition extract_step (resume_text : string)
    (extracted_skills : list string) (skill : string) : list string :=
  if PyStr.contains resume_text skill
     && negb (bool_decide (skill ∈ extracted_skills))
  then extracted_skills ++ [skill] else extracted_skills.

(** The loop itself; [iter] is the order in which the set hands out its
    elements. *)
Definition extract_skills (iter : gset string → list string)
    (df : DataFrame) (resume_text : string) : list string :=
  foldl (extract_step resume_text) [] (iter (all_skills_data df)).

Definition sentinel : Result :=
  {| career := Some "N/A"; education := Some "N/A"; category := Some "N/A";
     score := None |}.

(** [analyze_resume], from the request's [resume_text] to the two entries of
    the reply: [extracted_skills] and [career_details]. *)
Definition analyze_resume (iter : gset string → list string)
    (df : DataFrame) (text : string) : string * Result :=
  let resume_text := PyStr.lower text in
  let extracted_skills := extract_skills iter df resume_text in
  let career_pred :=
    predict_career_from_skills df (PyStr.join ", " extracted_skills) 1 in
  let career_details :=
    match career_pred with
    | r :: _ => r
    | [] => sentinel
    end in
  (PyStr.join ", " extracted_skills, career_details).

(** ** Effects: output, sleeping, requests to the completion service *)

(** What a Python call does: return a value or raise an [Exception], kept as
    its message. *)
Inductive outcome (A : Type) : Type :=
  | Returned (a : A)
  | Raised (e : string).
Arguments Returned {A} a.
Arguments Raised {A} e.

Record World : Type := mkWorld {
  requests : nat;          (* completion requests sent so far *)
  slept : list nat;        (* arguments of [time.sleep], oldest first *)
  stdout : list string     (* lines printed, oldest first *)
}.

Definition M (A : Type) : Type := World → outcome A * World.

Global Instance M_ret : MRet M := λ A a w, (Returned a, w).
Global Instance M_bind : MBind M := λ A B f m w,
  match m w with
  | (Returned a, w') => f a w'
  | (Raised e, w') => (Raised e, w')
  end.

Definition raise {A} (e : string) : M A := λ w, (Raised e, w).

(** [try: body except Exception as e: handler e] *)
Definition try_except {A} (body : M A) (handler : string → M A) : M A :=
  λ w, match body w with
       | (Returned a, w') => (Returned a, w')
       | (Raised e, w') => handler e w'
       end.

Definition print (line : string) : M () :=
  λ w, (Returned (), mkWorld (requests w) (slept w) (stdout w ++ [line])).

Definition sleep (seconds : nat) : M () :=
  λ w, (Returned (), mkWorld (requests w) (slept w ++ [seconds]) (stdout w)).

(** A configured client: what the service answers to its [n]-th request
    (counted from 0 over the life of the process) with the given contents;
    the answer is the response's [text] or the exception of the call. *)
Abbreviation Client := (nat → string → outcome string).

Definition generate_content (client : Client) (contents : string) : M string :=
  λ w, (client (requests w) contents,
        mkWorld (S (requests w)) (slept w) (stdout w)).

(** ** Dataset loading *)

Definition CSV_FILE : string := "data/career_dataset_cleaned.csv".

(** The module-level [try] around [pd.read_csv]; [read_csv] is what the call
    did. *)
Definition load_dataset (read_csv : outcome DataFrame) : M DataFrame :=
  try_except
    (df ← (λ w, (read_csv, w)) : M DataFrame;
     if bool_decide (df = []) then raise "Empty DataFrame" else mret df)
    (λ e,
       print ("Error loading CSV at " +:+ CSV_FILE +:+ ": " +:+ e
              +:+ ". Using a mock DataFrame.");;
       mret mock_df).

(** ** Chat bridge *)

Definition max_retries : nat := 3.

Definition not_initialized : string :=
  "Error: Gemini client is not initialized. Check API key configuration.".
Definition retries_exhausted : string :=
  "Error contacting Gemini API after several retries.".
Definition unexpected : string := "An unexpected error occurred.".

(** One pass through the body of the [for] loop: [Some s] when the body
    executes [return s], [None] when it falls through to the next attempt. *)
Definition attempt_once (client : Client) (message : string) (attempt : nat)
    : M (option string) :=
  try_except
    (text ← generate_content client message; mret (Some text))
    (λ e,
       if decide (attempt < max_retries - 1) then
         let wait_time := 2 ^ attempt in
         print ("Gemini chat error (Attempt " +:+ pretty (attempt + 1) +:+ "/"
                +:+ pretty max_retries +:+ "): " +:+ e +:+ ". Retrying in "
                +:+ pretty wait_time +:+ "s.");;
         sleep wait_time;;
         mret None
       else
         print ("Gemini chat error: " +:+ e);;
         mret (Some retries_exhausted)).

Fixpoint retry_loop (client : Client) (message : string) (attempts : list nat)
    : M string :=
  match attempts with
  | [] => mret unexpected
  | attempt :: rest =>
      r ← attempt_once client message attempt;
      match r with
      | Some s => mret s
      | None => retry_loop client message rest
      end
  end.

Definition chat_with_gemini (client : option Client) (message : string)
    : M string :=
  match client with
  | None => mret not_initialized
  | Some c => retry_loop c message (seq 0 max_retries)
  end.

Definition world0 : World := mkWorld 0 [] [].

(** ** Categories, client set-up and the request handlers *)

(** [Series.unique()]: the values in order of first appearance. *)
Definition unique (l : list string) : list string :=
  foldl (λ seen x, if bool_decide (x ∈ seen) then seen else seen ++ [x]) [] l.

(** [sorted(df['Career_category'].dropna().unique().tolist())]; Python
    orders strings by code point, which is [String.le], and a list sorted by
    that order is determined by its elements. *)
Definition get_categories (df : DataFrame) : list string :=
  merge_sort String.le (unique (omap Career_category df)).

(** The two entries of the reply of [get_categories_and_skills]. *)
Definition get_categories_and_skills (iter : gset string → list string)
    (df : DataFrame) : list string * list string :=
  (get_categories df, iter (known_skills df)).

(** [d.get(key, default)] on the string-valued entries of a request. *)
Definition get_or (d : gmap string string) (key default : string) : string :=
  match d !! key with
  | Some v => v
  | None => default
  end.

Definition get_category_rows (df : DataFrame) (args : gmap string string)
    : list string :=
  let category := get_or args "category" "" in
  get_skills_for_category df category.

(** The handler of [/analyze_resume], from the body of the request. *)
Definition analyze_resume_request (iter : gset string → list string)
    (df : DataFrame) (data : gmap string string) : string * Result :=
  analyze_resume iter df (get_or data "resume_text" "").

Definition chatbot (client : option Client) (data : gmap string string)
    : M string :=
  let user_msg := get_or data "message" "" in
  chat_with_gemini client user_msg.

(** The module-level [try] that sets [client]; [new_client key] is what
    [genai.Client(api_key=key)] did, [new_client None] what [genai.Client()]
    did.  An empty key is falsy, as an absent one. *)
Definition init_client (GEMINI_API_KEY : option string)
    (new_client : option string → outcome Client) : M (option Client) :=
  try_except
    (c ← (λ w, (match GEMINI_API_KEY with
                | Some key => if PyStr.truthy key then new_client (Some key)
                              else new_client None
                | None => new_client None
                end, w)) : M Client;
     mret (Some c))
    (λ e, print ("Failed to initialize Gemini Client: " +:+ e);; mret None).

(** ** Vocabulary of the statements *)

(** The character [c] occurs in [s]. *)
Fixpoint mentions (c : ascii) (s : string) : bool :=
  match s with
  | EmptyString => false
  | String x s' => Ascii.eqb x c || mentions c s'
  end.

(** What the comprehension of [tokens] produces: a non-empty, lowercase,
    trimmed string without a comma. *)
Definition is_token (t : string) : Prop :=
  t ≠ EmptyString ∧ PyStr.lower t = t ∧ PyStr.strip t = t
  ∧ mentions "," t = false.

(** All three skill cells of the row are present. *)
Definition complete_row (row : Row) : Prop :=
  is_Some (Skill row) ∧ is_Some (Interests row) ∧ is_Some (Hobby row).

(** [p] occurs in [s] as a substring. *)
Definition is_substring (p s : string) : Prop :=
  ∃ pre post, s = pre +:+ p +:+ post.

(** Two characters that are the same letter, whatever their case. *)
Definition same_letter (x y : ascii) : Prop :=
  x = y
  ∨ (PyStr.is_upper x = true ∧ y = PyStr.lower_char x)
  ∨ (PyStr.is_upper y = true ∧ x = PyStr.lower_char y).

(** Two strings that differ in letter case only. *)
Fixpoint differ_only_in_case (a b : string) : Prop :=
  match a, b with
  | EmptyString, EmptyString => True
  | String x a', String y b' => same_letter x y ∧ differ_only_in_case a' b'
  | _, _ => False
  end.

(** The row's category label is [c] up to letter case. *)
Definition in_category (c : string) (row : Row) : Prop :=
  ∃ label, Career_category row = Some label ∧ differ_only_in_case label c.

(** The rows with a non-zero overlap, in row order. *)
Definition matching_rows (q : gset string) (df : DataFrame) : list Row :=
  filter (λ row, 0 < overlap q row) df.

(** The dictionary emitted for a row. *)
Definition emit (q : gset string) (row : Row) : Result :=
  {| career := Career row;
     category := Career_category row;
     education := Recommended_education row;
     score := Some (overlap q row) |}.

(** The matching rows, best first. *)
Definition ranked_rows (q : gset string) (df : DataFrame) : list Row :=
  sorted (λ row, (- Z.of_nat (overlap q row))%Z) (matching_rows q df).

(** The cells of a row's skill columns that are not NaN, in column order. *)
Definition present_cells (row : Row) : list string :=
  omap id [Skill row; Interests row; Hobby row].

(** A table without duplicate rows in which the skills of the second row are
    among those of the first. *)
Definition shadow_df : DataFrame :=
  [ mkRow (Some "Technology") (Some "python, sql") None None
          (Some "Data Engineer") (Some "BSc");
    mkRow (Some "Technology") (Some "python") None None
          (Some "Script Writer") (Some "Bootcamp") ].

(** A table whose only row has a skill cell without any token. *)
Definition blank_df : DataFrame :=
  [ mkRow (Some "Arts") (Some ",") None None (Some "Painter") (Some "BFA") ].

(** ** Facts about the string primitives *)

Module PyStrFacts.
Import PyStr.

Ltac each_char c := destruct c as [[] [] [] [] [] [] [] []].

Lemma lower_char_idemp c : lower_char (lower_char c) = lower_char c.
Proof. each_char c; reflexivity. Qed.

Lemma lower_char_not_upper c : is_upper (lower_char c) = false.
Proof. each_char c; reflexivity. Qed.

(** Lowering is one-to-one on the capitals. *)
Lemma lower_char_upper_inj x y :
  is_upper x = true → is_upper y = true →
  lower_char x = lower_char y → x = y.
Proof.
  intros Hx Hy H.
  assert (U : ∀ c, is_upper c = true →
                   ascii_of_N (N_of_ascii (lower_char c) - 32) = c).
  { intros c. each_char c; vm_compute; congruence. }
  rewrite <- (U x Hx), <- (U y Hy), H. reflexivity.
Qed.

Lemma lower_idemp s : lower (lower s) = lower s.
Proof. induction s as [|c s IH]; simpl; [done|]. by rewrite lower_char_idemp, IH. Qed.

Lemma lower_char_eq_iff x y :
  lower_char x = lower_char y ↔ same_letter x y.
Proof.
  unfold same_letter. split.
  - intros H. destruct (is_upper x) eqn:Hx, (is_upper y) eqn:Hy.
    + left. by apply lower_char_upper_inj.
    + right; left. split; [done|]. rewrite H. unfold lower_char. by rewrite Hy.
    + right; right. split; [done|]. rewrite <- H. unfold lower_char. by rewrite Hx.
    + left. unfold lower_char in H. by rewrite Hx, Hy in H.
  - intros [->|[[_ ->]|[_ ->]]]; by rewrite ?lower_char_idemp.
Qed.

(** [lower] identifies exactly the strings that differ in case only. *)
Lemma lower_eq_iff a b : lower a = lower b ↔ differ_only_in_case a b.
Proof.
  revert b. induction a as [|x a IH]; intros [|y b]; simpl; try done.
  rewrite <- IH, <- lower_char_eq_iff. split.
  - intros H. by injection H.
  - by intros [-> ->].
Qed.

Lemma split_nonempty sep s : split sep s ≠ [].
Proof.
  destruct s as [|c s]; simpl; [done|].
  destruct (Ascii.eqb c sep); [done|]. by destruct (split sep s).
Qed.

Lemma split_cons_other sep c s :
  Ascii.eqb c sep = false →
  ∃ h t, split sep s = h :: t ∧ split sep (String c s) = String c h :: t.
Proof.
  intros Hc. simpl. rewrite Hc.
  destruct (split sep s) as [|h t] eqn:E; [by apply split_nonempty in E|].
  by exists h, t.
Qed.

(** Splitting what was glued with the separator gives back both halves. *)
Lemma split_app_sep sep a b :
  split sep (a +:+ String sep b) = split sep a ++ split sep b.
Proof.
  induction a as [|c a IH]; simpl.
  - by rewrite Ascii.eqb_refl.
  - destruct (Ascii.eqb c sep); [by rewrite IH|].
    rewrite IH. destruct (split sep a) as [|h t] eqn:E; [|done].
    by apply split_nonempty in E.
Qed.

Lemma strip_space_l c s : is_space c = true → strip (String c s) = strip s.
Proof. intros Hc. unfold strip. simpl. by rewrite Hc. Qed.

Lemma starts_with_spec s p :
  starts_with s p = true ↔ ∃ post, s = p +:+ post.
Proof.
  revert s. induction p as [|a p IH]; intros s; simpl.
  - split; [intros _; exists s; reflexivity | done].
  - destruct s as [|b s].
    + split; [done | intros [post H]; discriminate].
    + rewrite andb_true_iff, IH. split.
      * intros [Hab [post ->]]. apply Ascii.eqb_eq in Hab as ->. by exists post.
      * intros [post H]. injection H as -> ->. split; [apply Ascii.eqb_refl | by exists post].
Qed.

(** [contains] decides "occurs as a substring". *)
Lemma contains_spec s p :
  contains s p = true ↔ ∃ pre post, s = pre +:+ p +:+ post.
Proof.
  induction s as [|c s IH].
  - simpl. rewrite orb_false_r, starts_with_spec. split.
    + intros [post H]. by exists EmptyString, post.
    + intros [[|x pre] [post H]]; [by exists post | discriminate].
  - cbn [contains]. rewrite orb_true_iff, IH, starts_with_spec. split.
    + intros [[post H] | (pre & post & ->)].
      * by exists EmptyString, post.
      * by exists (String c pre), post.
    + intros [[|x pre] [post H]].
      * left. by exists post.
      * right. injection H as -> ->. by exists pre, post.
Qed.

End PyStrFacts.

(** ** Facts about the stable sort *)

Section Sorting.
Context {A : Type} (key : A → Z).

Definition key_le (a b : A) : Prop := (key a ≤ key b)%Z.

Lemma insert_by_perm x l : insert_by key x l ≡ₚ x :: l.
Proof.
  induction l as [|y l IH]; simpl; [done|].
  destruct (key x <=? key y)%Z; [done|].
  rewrite IH. apply Permutation_swap.
Qed.

Lemma sorted_perm l : sorted key l ≡ₚ l.
Proof.
  induction l as [|x l IH]; simpl; [done|].
  by rewrite insert_by_perm, IH.
Qed.

Lemma insert_by_sorted x l :
  StronglySorted key_le l → StronglySorted key_le (insert_by key x l).
Proof.
  induction 1 as [|y l Hl IH Hy]; simpl.
  - repeat constructor.
  - destruct (Z.leb_spec (key x) (key y)) as [Hxy|Hxy].
    + constructor; [by constructor|].
      constructor; [done|].
      eapply Forall_impl; [exact Hy|]. unfold key_le. intros; lia.
    + constructor; [done|].
      rewrite insert_by_perm. constructor; [unfold key_le; lia | done].
Qed.

Lemma sorted_sorted l : StronglySorted key_le (sorted key l).
Proof.
  induction l as [|x l IH]; simpl; [constructor|].
  by apply insert_by_sorted.
Qed.

(** Inserting in front of the first element that is not smaller keeps the
    new element ahead of its equals. *)
Lemma insert_by_filter (P : A → Prop) `{∀ a, Decision (P a)} x l :
  (∀ a b, P a → P b → key a = key b) →
  StronglySorted key_le l →
  filter P (insert_by key x l) = filter P (x :: l).
Proof.
  intros HP. induction 1 as [|y l Hl IH Hy]; simpl; [done|].
  destruct (Z.leb_spec (key x) (key y)) as [Hxy|Hxy]; [done|].
  rewrite !filter_cons in *.
  destruct (decide (P y)) as [Py|Py], (decide (P x)) as [Px|Px];
    rewrite IH; try done.
  specialize (HP _ _ Px Py). lia.
Qed.

(** Stability: the elements of one key keep their relative order. *)
Lemma sorted_stable (P : A → Prop) `{∀ a, Decision (P a)} l :
  (∀ a b, P a → P b → key a = key b) →
  filter P (sorted key l) = filter P l.
Proof.
  intros HP. induction l as [|x l IH]; simpl; [done|].
  rewrite insert_by_filter by auto using sorted_sorted.
  by rewrite !filter_cons, IH.
Qed.

Lemma sorted_fmap {B} (f : B → A) (l : list B) :
  sorted key (f <$> l) = f <$> sorted (key ∘ f) l.
Proof.
  induction l as [|x l IH]; [done|].
  rewrite fmap_cons. cbn [sorted]. rewrite IH.
  generalize (sorted (key ∘ f) l). intros m.
  induction m as [|y m IHm]; [done|].
  rewrite fmap_cons. cbn [insert_by compose].
  destruct (key (f x) <=? key (f y))%Z; [done|].
  by rewrite fmap_cons, <- IHm.
Qed.

(** A sorted list is determined by its classes of equal keys, each in
    order: any stable sort returns what [sorted] returns. *)
Lemma stable_sort_unique l1 l2 :
  StronglySorted key_le l1 → StronglySorted key_le l2 →
  (∀ k, filter (λ a, key a = k) l1 = filter (λ a, key a = k) l2) →
  l1 = l2.
Proof.
  intros S1. revert l2.
  induction S1 as [|x l1 S1 IH Hx]; intros l2 S2 HF.
  - destruct l2 as [|y l2]; [done|].
    specialize (HF (key y)). rewrite filter_cons_True in HF by done.
    discriminate.
  - destruct S2 as [|y l2 S2 Hy].
    + specialize (HF (key x)). rewrite filter_cons_True in HF by done.
      discriminate.
    + assert (Hxy : key x = key y).
      { pose proof (HF (key x)) as Fx. pose proof (HF (key y)) as Fy.
        rewrite (filter_cons_True _ x) in Fx by done.
        rewrite (filter_cons_True _ y) in Fy by done.
        assert (x ∈ y :: l2) as Hin1.
        { eapply (list_elem_of_filter (λ a, key a = key x)).
          rewrite <- Fx. left. }
        assert (y ∈ x :: l1) as Hin2.
        { eapply (list_elem_of_filter (λ a, key a = key y)).
          rewrite Fy. left. }
        rewrite Forall_forall in Hx, Hy. unfold key_le in *.
        apply elem_of_cons in Hin1 as [->|Hin1]; [done|].
        apply elem_of_cons in Hin2 as [->|Hin2]; [done|].
        specialize (Hx _ Hin2). specialize (Hy _ Hin1). lia. }
      pose proof (HF (key x)) as Fx.
      rewrite (filter_cons_True _ x), (filter_cons_True _ y) in Fx by done.
      injection Fx as -> Fx. f_equal. apply IH; [done|].
      intros k. specialize (HF k). rewrite !filter_cons in HF.
      destruct (decide (key y = k)); [by injection HF | done].
Qed.
(** So [sorted] returns the one list a stable sort can return. *)
Lemma sorted_is_the_stable_sort l l' :
  StronglySorted key_le l' →
  (∀ k, filter (λ a, key a = k) l' = filter (λ a, key a = k) l) →
  l' = sorted key l.
Proof.
  intros Hs Hk. apply stable_sort_unique; [done | apply sorted_sorted |].
  intros k. rewrite Hk. symmetry. apply sorted_stable. congruence.
Qed.

End Sorting.

(** ** The skill matcher *)

Lemma slice_to_nonneg {A} (l : list A) (count : Z) :
  (0 ≤ count)%Z → slice_to l count = take (Z.to_nat count) l.
Proof. intros H. unfold slice_to. by rewrite (proj2 (Z.leb_le 0 count) H). Qed.

Lemma slice_to_fmap {A B} (f : A → B) (l : list A) (count : Z) :
  slice_to (f <$> l) count = f <$> slice_to l count.
Proof.
  unfold slice_to. rewrite length_fmap.
  destruct (0 <=? count)%Z; by rewrite fmap_take.
Qed.

Lemma slice_to_Forall {A} (P : A → Prop) (l : list A) (count : Z) :
  Forall P l → Forall P (slice_to l count).
Proof. unfold slice_to. destruct (0 <=? count)%Z; apply Forall_take. Qed.

Lemma score_loop_acc q df (acc : list (nat * Row)) :
  foldl (λ scores row,
           let o := overlap q row in
           if decide (0 < o) then scores ++ [(o, row)] else scores) acc df
  = acc ++ ((λ row, (overlap q row, row)) <$> matching_rows q df).
Proof.
  unfold matching_rows. revert acc.
  induction df as [|row df IH]; intros acc; cbn [foldl].
  - by rewrite app_nil_r.
  - rewrite IH, filter_cons. cbv zeta.
    destruct (decide (0 < overlap q row)); [|done].
    by rewrite fmap_cons, <- app_assoc.
Qed.

(** The scoring loop keeps, in row order, the rows with a positive overlap. *)
Lemma score_rows_eq q df :
  score_rows q df = (λ row, (overlap q row, row)) <$> matching_rows q df.
Proof. unfold score_rows. by rewrite score_loop_acc. Qed.

Lemma predict_unfold df skills_input count :
  predict_career_from_skills df skills_input count
  = emit (token_set skills_input)
      <$> slice_to (ranked_rows (token_set skills_input) df) count.
Proof.
  unfold predict_career_from_skills, ranked_rows.
  rewrite score_rows_eq, sorted_fmap, slice_to_fmap, <- list_fmap_compose.
  done.
Qed.

Lemma ranked_rows_perm q df : ranked_rows q df ≡ₚ matching_rows q df.
Proof. apply sorted_perm. Qed.

Lemma matching_rows_positive q df :
  Forall (λ row, 0 < overlap q row) (matching_rows q df).
Proof.
  apply Forall_forall. intros row Hrow.
  by apply list_elem_of_filter in Hrow as [? _].
Qed.

Lemma ranked_rows_positive q df :
  Forall (λ row, 0 < overlap q row) (ranked_rows q df).
Proof. rewrite ranked_rows_perm. apply matching_rows_positive. Qed.

Lemma ranked_rows_descending q df :
  StronglySorted (λ a b, overlap q b ≤ overlap q a) (ranked_rows q df).
Proof.
  unfold ranked_rows.
  pose proof (sorted_sorted (λ row, (- Z.of_nat (overlap q row))%Z)
                (matching_rows q df)) as H.
  induction H as [|x l Hl IH Hx]; constructor; [done|].
  eapply Forall_impl; [exact Hx|]. unfold key_le. intros; simpl in *; lia.
Qed.

Lemma ranked_rows_stable q df s :
  filter (λ row, overlap q row = s) (ranked_rows q df)
  = filter (λ row, overlap q row = s) (matching_rows q df).
Proof.
  unfold ranked_rows. apply sorted_stable. intros a b Ha Hb. simpl in *. lia.
Qed.

(** C1: for [count >= 1] the matcher returns the dictionaries of the first
    [count] rows of a ranking of the dataset: the ranking holds exactly the
    rows whose overlap with the parsed query is positive, in descending order
    of overlap, the rows of one overlap in dataset row order; each dictionary
    copies its row and carries the row's overlap as [score]; the result has
    [min count (number of rows with positive overlap)] entries. *)
Theorem predict_ranked_top_k (df : DataFrame) (skills_input : string) (count : Z) :
  (1 ≤ count)%Z →
  let q := token_set skills_input in
  ∃ ranked : list Row,
    ranked ≡ₚ filter (λ row, 0 < overlap q row) df
    ∧ Forall (λ row, 0 < overlap q row) ranked
    ∧ StronglySorted (λ a b, overlap q b ≤ overlap q a) ranked
    ∧ (∀ s, filter (λ row, overlap q row = s) ranked
            = filter (λ row, overlap q row = s)
                (filter (λ row, 0 < overlap q row) df))
    ∧ predict_career_from_skills df skills_input count
      = (λ row, {| career := Career row;
                   category := Career_category row;
                   education := Recommended_education row;
                   score := Some (overlap q row) |})
          <$> take (Z.to_nat count) ranked
    ∧ length (predict_career_from_skills df skills_input count)
      = Z.to_nat count `min` length (filter (λ row, 0 < overlap q row) df).
Proof.
  intros Hcount q. exists (ranked_rows q df).
  split; [apply ranked_rows_perm|].
  split; [apply ranked_rows_positive|].
  split; [apply ranked_rows_descending|].
  split; [apply ranked_rows_stable|].
  rewrite predict_unfold, slice_to_nonneg by lia. fold q.
  split; [done|].
  rewrite length_fmap, length_take.
  by rewrite (Permutation_length (ranked_rows_perm q df)).
Qed.

Lemma predict_ranked_top_k_witness :
  ∃ ranked : list Row,
    ranked ≡ₚ filter (λ row, 0 < overlap (token_set "reading, ai, biology") row) mock_df
    ∧ predict_career_from_skills mock_df "reading, ai, biology" 1
      = emit (token_set "reading, ai, biology") <$> take 1 ranked.
Proof.
  destruct (predict_ranked_top_k mock_df "reading, ai, biology" 1 ltac:(lia))
    as (ranked & Hperm & _ & _ & _ & Heq & _).
  exists ranked. split; [exact Hperm | exact Heq].
Defined.

(** C10: whatever the query and the count, every emitted dictionary carries a
    score of at least 1. *)
Theorem predict_scores_positive (df : DataFrame) (skills_input : string) (count : Z) :
  Forall (λ r, ∃ n, score r = Some n ∧ 1 ≤ n)
         (predict_career_from_skills df skills_input count).
Proof.
  rewrite predict_unfold. apply Forall_fmap.
  eapply Forall_impl.
  - apply slice_to_Forall, ranked_rows_positive.
  - intros row Hrow. exists (overlap (token_set skills_input) row). split; [done | simpl in *; lia].
Qed.

Lemma filter_none {A} (P : A → Prop) `{∀ a, Decision (P a)} (l : list A) :
  (∀ a, a ∈ l → ¬ P a) → filter P l = [].
Proof.
  induction l as [|a l IH]; intros Hl; [done|].
  rewrite filter_cons, decide_False by (apply Hl; left).
  apply IH. intros b Hb. apply Hl. by right.
Qed.

(** Without a row that shares a token with the query nothing is returned. *)
Lemma predict_no_overlap df skills_input count :
  (∀ row, row ∈ df → overlap (token_set skills_input) row = 0) →
  predict_career_from_skills df skills_input count = [].
Proof.
  intros Hs. rewrite predict_unfold.
  unfold ranked_rows, matching_rows. rewrite filter_none.
  - cbn [sorted]. unfold slice_to. by destruct (0 <=? count)%Z; rewrite take_nil.
  - intros row Hrow. rewrite (Hs row Hrow). lia.
Qed.

Lemma predict_no_tokens df skills_input count :
  token_set skills_input = ∅ →
  predict_career_from_skills df skills_input count = [].
Proof.
  intros Hs. apply predict_no_overlap. intros row _. unfold overlap.
  by rewrite Hs, (left_absorb_L ∅ (∩)), size_empty.
Qed.

(** C7: for [count >= 1] the matcher returns the empty list for the empty
    query, for any query that parses to no token, and whenever no row shares
    a token with the query; and when [count] is at least the number of rows
    with positive overlap it returns the dictionaries of all of them, ranked,
    and nothing else. *)
Theorem predict_empty_or_all (df : DataFrame) (skills_input : string) (count : Z) :
  (1 ≤ count)%Z →
  let q := token_set skills_input in
  predict_career_from_skills df "" count = []
  ∧ (q = ∅ → predict_career_from_skills df skills_input count = [])
  ∧ ((∀ row, row ∈ df → overlap q row = 0) →
     predict_career_from_skills df skills_input count = [])
  ∧ (length (filter (λ row, 0 < overlap q row) df) ≤ Z.to_nat count →
     ∃ ranked : list Row,
       ranked ≡ₚ filter (λ row, 0 < overlap q row) df
       ∧ StronglySorted (λ a b, overlap q b ≤ overlap q a) ranked
       ∧ predict_career_from_skills df skills_input count
         = (λ row, {| career := Career row;
                      category := Career_category row;
                      education := Recommended_education row;
                      score := Some (overlap q row) |}) <$> ranked
       ∧ length (predict_career_from_skills df skills_input count)
         = length (filter (λ row, 0 < overlap q row) df)).
Proof.
  intros Hcount q.
  split; [by apply predict_no_tokens|].
  split; [apply predict_no_tokens|].
  split; [apply predict_no_overlap|].
  intros Hlen. exists (ranked_rows q df).
  split; [apply ranked_rows_perm|].
  split; [apply ranked_rows_descending|].
  rewrite predict_unfold, slice_to_nonneg by lia. fold q.
  pose proof (Permutation_length (ranked_rows_perm q df)) as HL.
  unfold matching_rows in HL.
  rewrite take_ge by lia. split; [done|].
  by rewrite length_fmap.
Qed.

Lemma predict_empty_or_all_witness :
  predict_career_from_skills mock_df "" 5 = []
  ∧ (token_set " , ," = ∅ → predict_career_from_skills mock_df " , ," 5 = []).
Proof.
  destruct (predict_empty_or_all mock_df " , ," 5 ltac:(lia)) as (H1 & H2 & _).
  split; [exact H1 | exact H2].
Defined.

(** ** A row's own skill string *)

Lemma tokens_glue a b : tokens (a +:+ ", " +:+ b) = tokens a ++ tokens b.
Proof.
  unfold tokens.
  change (a +:+ ", " +:+ b) with (a +:+ String "," (String " " b)).
  rewrite PyStrFacts.split_app_sep, filter_app, fmap_app. f_equal.
  destruct (PyStrFacts.split_cons_other "," " " b eq_refl) as (h & t & -> & ->).
  rewrite !filter_cons, !PyStrFacts.strip_space_l by done.
  destruct (decide (PyStr.truthy (PyStr.strip h) = true)); [|done].
  by rewrite !fmap_cons, PyStrFacts.strip_space_l.
Qed.

(** Parsing the joined cells gives the union of the cells' tokens. *)
Lemma token_set_join (l : list string) :
  token_set (PyStr.join ", " l) = ⋃ (token_set <$> l).
Proof.
  induction l as [|x [|y l] IH].
  - done.
  - cbn. by rewrite (right_id_L ∅ (∪)).
  - change (PyStr.join ", " (x :: y :: l))
      with (x +:+ ", " +:+ PyStr.join ", " (y :: l)).
    unfold token_set at 1. rewrite tokens_glue, list_to_set_app_L.
    fold (token_set x). fold (token_set (PyStr.join ", " (y :: l))).
    by rewrite IH.
Qed.

Lemma present_fields_cells row : present_fields row = present_cells row.
Proof.
  unfold present_fields, present_cells, skill_cols. cbn.
  by destruct (Skill row), (Interests row), (Hobby row).
Qed.

Lemma row_skills_cells row : row_skills row = ⋃ (token_set <$> present_cells row).
Proof.
  unfold row_skills, present_cells, skill_cols. cbn.
  destruct (Skill row), (Interests row), (Hobby row); cbn;
    rewrite ?(left_id_L ∅ (∪)), ?(right_id_L ∅ (∪)), <- ?(assoc_L (∪)); done.
Qed.

(** The query parsed from a row's combined string is the row's own token
    set. *)
Lemma token_set_combined row :
  token_set (PyStr.join ", " (present_fields row)) = row_skills row.
Proof. by rewrite token_set_join, present_fields_cells, row_skills_cells. Qed.

Lemma overlap_le q row : overlap q row ≤ size q.
Proof. apply subseteq_size, intersection_subseteq_l. Qed.

Lemma overlap_full q row : overlap q row = size q ↔ q ⊆ row_skills row.
Proof.
  unfold overlap. split.
  - intros H. assert (q ∩ row_skills row = q) as E.
    { apply set_subseteq_size_eq; [apply intersection_subseteq_l | lia]. }
    rewrite <- E. apply intersection_subseteq_r.
  - intros H. f_equal. by apply subseteq_intersection_1_L.
Qed.

(** C3, as the code has it: a row whose token set is not empty and is not
    included in the token set of any earlier row comes back, alone, from its
    own combined skill string with [count = 1], its score the number of its
    distinct tokens. *)
Theorem roundtrip_first_superset (pre post : list Row) (row : Row) :
  row_skills row ≠ ∅ →
  (∀ r, r ∈ pre → ¬ row_skills row ⊆ row_skills r) →
  predict_career_from_skills (pre ++ row :: post)
    (PyStr.join ", " (present_fields row)) 1
  = [ {| career := Career row;
         category := Career_category row;
         education := Recommended_education row;
         score := Some (size (row_skills row)) |} ].
Proof.
  intros Hne Hpre.
  rewrite predict_unfold, slice_to_nonneg by lia.
  rewrite token_set_combined.
  set (q := row_skills row). set (df := pre ++ row :: post).
  set (n := size q).
  assert (Hn : 0 < n).
  { destruct (decide (n = 0)) as [E|]; [|lia].
    apply size_empty_inv in E. destruct Hne. by apply leibniz_equiv. }
  assert (Hrow : overlap q row = n) by (by apply overlap_full).
  (* the rows scoring [n], as the table lists them *)
  assert (Hclass : ∃ tl, filter (λ r, overlap q r = n) (ranked_rows q df) = row :: tl).
  { rewrite ranked_rows_stable. unfold matching_rows, df.
    rewrite !filter_app, filter_cons.
    rewrite (filter_none (λ r, overlap q r = n)).
    - destruct (decide (0 < overlap q row)); [|lia].
      rewrite filter_cons. destruct (decide (overlap q row = n)); [|done].
      by eexists.
    - intros r Hr. apply list_elem_of_filter in Hr as [_ Hr].
      intros E. apply (Hpre r Hr). by apply overlap_full. }
  destruct Hclass as [tl Hclass].
  pose proof (ranked_rows_descending q df) as Hsorted.
  destruct (ranked_rows q df) as [|x rest] eqn:E; [done|].
  assert (Hx : overlap q x = n).
  { assert (row ∈ x :: rest) as Hin.
    { eapply (list_elem_of_filter (λ r, overlap q r = n)).
      rewrite Hclass. left. }
    pose proof (overlap_le q x). fold n in H.
    apply elem_of_cons in Hin as [->|Hin]; [done|].
    apply StronglySorted_cons in Hsorted as [Hall _].
    rewrite Forall_forall in Hall. specialize (Hall _ Hin). simpl in Hall. lia. }
  rewrite filter_cons in Hclass.
  destruct (decide (overlap q x = n)); [|done].
  injection Hclass as -> _.
  change (take (Z.to_nat 1) (row :: rest)) with [row].
  rewrite list_fmap_singleton. unfold emit. by rewrite Hrow.
Qed.

Lemma roundtrip_first_superset_witness :
  predict_career_from_skills mock_df
    "Empathy, Biology, Patient Care, Research, Volunteering, Fitness" 1
  = [ mkResult (Some "Nurse") (Some "Healthcare") (Some "BSN") (Some 6) ].
Proof.
  refine (eq_trans _ (eq_trans
    (roundtrip_first_superset
       [mkRow (Some "Technology") (Some "Programming, AI")
              (Some "Video Games, Robotics") (Some "Coding, Reading")
              (Some "Software Engineer") (Some "Bachelor's in CS")]
       [mkRow (Some "Education") (Some "Teaching, Communication")
              (Some "Mentoring, Learning") (Some "Tutoring, Public Speaking")
              (Some "High School Teacher") (Some "Master's in Education")]
       (mkRow (Some "Healthcare") (Some "Empathy, Biology")
              (Some "Patient Care, Research") (Some "Volunteering, Fitness")
              (Some "Nurse") (Some "BSN")) _ _) _)).
  - reflexivity.
  - vm_compute. discriminate.
  - intros r Hr. apply list_elem_of_singleton in Hr as ->.
    intros Hsub. specialize (Hsub "empathy").
    vm_compute in Hsub. specialize (Hsub eq_refl). discriminate.
  - vm_compute. reflexivity.
Defined.

(** C3, as the spec states it, fails on [shadow_df]: the table has no
    duplicate rows, its second row's combined string is ["python"], and the
    matcher answers with the first row.  It fails on [blank_df] too, whose
    row has the combined string [","] and is not returned at all. *)
Lemma roundtrip_shadowed :
  NoDup shadow_df
  ∧ shadow_df !! 1 = Some (mkRow (Some "Technology") (Some "python") None None
                                 (Some "Script Writer") (Some "Bootcamp"))
  ∧ get_skills_for_category shadow_df "Technology" = ["python, sql"; "python"]
  ∧ predict_career_from_skills shadow_df "python" 1
    = [ mkResult (Some "Data Engineer") (Some "Technology") (Some "BSc") (Some 1) ]
  ∧ predict_career_from_skills shadow_df "python" 1
    ≠ [ mkResult (Some "Script Writer") (Some "Technology") (Some "Bootcamp") (Some 1) ]
  ∧ NoDup blank_df
  ∧ get_skills_for_category blank_df "Arts" = [","]
  ∧ predict_career_from_skills blank_df "," 1 = [].
Proof.
  split; [|split; [|split; [|split; [|split; [|split; [|split]]]]]].
  - apply (bool_decide_unpack _). vm_compute. exact I.
  - reflexivity.
  - vm_compute. reflexivity.
  - vm_compute. reflexivity.
  - vm_compute. discriminate.
  - apply NoDup_singleton.
  - vm_compute. reflexivity.
  - vm_compute. reflexivity.
Qed.

(** ** The category view *)

Lemma category_matches_spec c row :
  category_matches c row = true ↔ in_category c row.
Proof.
  unfold category_matches, in_category.
  destruct (Career_category row) as [label|].
  - rewrite bool_decide_eq_true, PyStrFacts.lower_eq_iff. split.
    + intros H. by exists label.
    + intros (l & [= <-] & H). done.
  - split; [done | by intros (l & ? & _)].
Qed.

Global Instance in_category_dec c row : Decision (in_category c row).
Proof.
  destruct (category_matches c row) eqn:E.
  - left. by apply category_matches_spec.
  - right. rewrite <- category_matches_spec. congruence.
Defined.

Lemma suggestions_loop_acc (rows : list Row) (acc : list string) :
  foldl (λ suggestions row,
           let combined := present_fields row in
           match combined with
           | [] => suggestions
           | _ => suggestions ++ [PyStr.join ", " combined]
           end) acc rows
  = acc ++ (PyStr.join ", "
              <$> filter (λ cells, cells ≠ []) (present_cells <$> rows)).
Proof.
  revert acc. induction rows as [|row rows IH]; intros acc; cbn [foldl].
  - by rewrite app_nil_r.
  - rewrite IH, fmap_cons, filter_cons, present_fields_cells. cbv zeta.
    destruct (present_cells row) as [|v cells] eqn:E.
    + by rewrite decide_False by (by intros H; apply H).
    + rewrite decide_True by done. by rewrite fmap_cons, <- app_assoc.
Qed.

(** C6: on a table in which some row has a label, the rows are selected by
    comparing the category label with the argument up to letter case, so two
    arguments that differ in case only give the same list; the list holds,
    in row order, for each selected row that has at least one of Skill,
    Interests, Hobby, those cells joined with [", "]. *)
Theorem rows_for_category_case_insensitive (df : DataFrame) (category : string) :
  (∃ row label, row ∈ df ∧ Career_category row = Some label) →
  (∀ category', differ_only_in_case category category' →
     get_skills_for_category df category = get_skills_for_category df category')
  ∧ get_skills_for_category df category
    = PyStr.join ", "
        <$> filter (λ cells, cells ≠ [])
              ((λ row, omap id [Skill row; Interests row; Hobby row])
                 <$> filter (in_category category) df).
Proof.
  intros _.
  assert (Hview : ∀ c, get_skills_for_category df c
    = PyStr.join ", " <$> filter (λ cells, cells ≠ [])
        (present_cells <$> filter (in_category c) df)).
  { intros c. unfold get_skills_for_category. rewrite suggestions_loop_acc.
    cbn [app]. do 3 f_equal. apply list_filter_iff. intros row.
    apply category_matches_spec. }
  split; [|apply Hview].
  intros c' Hc. rewrite !Hview. do 3 f_equal.
  apply list_filter_iff. intros row. unfold in_category.
  apply PyStrFacts.lower_eq_iff in Hc.
  split; intros (label & Hl & H); exists label; (split; [done|]);
    apply PyStrFacts.lower_eq_iff; apply PyStrFacts.lower_eq_iff in H; congruence.
Qed.

Lemma rows_for_category_case_insensitive_witness :
  get_skills_for_category mock_df "technology"
  = get_skills_for_category mock_df "TECHnology"
  ∧ get_skills_for_category mock_df "technology"
    = PyStr.join ", "
        <$> filter (λ cells, cells ≠ [])
              ((λ row, omap id [Skill row; Interests row; Hobby row])
                 <$> filter (in_category "technology") mock_df).
Proof.
  assert (Hlabel : ∃ row label, row ∈ mock_df ∧ Career_category row = Some label).
  { eexists _, "Technology". split; [left | reflexivity]. }
  destruct (rows_for_category_case_insensitive mock_df "technology" Hlabel)
    as [Hcase Hview].
  split; [|exact Hview].
  apply Hcase. vm_compute. tauto.
Defined.

(** ** Known skills and the resume extractor *)

Lemma token_union_loop (items : list string) (acc : gset string) :
  foldl (λ acc item, acc ∪ token_set item) acc items
  = acc ∪ ⋃ (token_set <$> items).
Proof.
  revert acc. induction items as [|item items IH]; intros acc; cbn [foldl].
  - by rewrite fmap_nil, union_list_nil, (right_id_L ∅ (∪)).
  - by rewrite IH, fmap_cons, union_list_cons, (assoc_L (∪)).
Qed.

Lemma elem_of_column_tokens (col : Row → cell) (df : DataFrame) t :
  t ∈ ⋃ (token_set <$> omap col df)
  ↔ ∃ row v, row ∈ df ∧ col row = Some v ∧ t ∈ token_set v.
Proof.
  rewrite elem_of_union_list. split.
  - intros (X & HX & Ht). apply list_elem_of_fmap in HX as (v & -> & Hv).
    apply list_elem_of_omap in Hv as (row & Hrow & Hcol). by exists row, v.
  - intros (row & v & Hrow & Hcol & Ht). exists (token_set v). split; [|done].
    apply list_elem_of_fmap. exists v. split; [done|].
    apply list_elem_of_omap. by exists row.
Qed.

Lemma elem_of_row_skills row t :
  t ∈ row_skills row
  ↔ ∃ v, (Skill row = Some v ∨ Interests row = Some v ∨ Hobby row = Some v)
         ∧ t ∈ token_set v.
Proof.
  rewrite row_skills_cells, elem_of_union_list. unfold present_cells. split.
  - intros (X & HX & Ht). apply list_elem_of_fmap in HX as (v & -> & Hv).
    exists v. split; [|done].
    apply list_elem_of_omap in Hv as (c & Hc & Hv). simpl in Hv. subst c.
    rewrite !elem_of_cons in Hc.
    destruct Hc as [Hc|[Hc|[Hc|Hc]]];
      [left | right; left | right; right | by apply elem_of_nil in Hc]; done.
  - intros (v & Hv & Ht). exists (token_set v). split; [|done].
    apply list_elem_of_fmap. exists v. split; [done|].
    apply list_elem_of_omap. exists (Some v). split; [|done].
    rewrite !elem_of_cons. destruct Hv as [Hv|[Hv|Hv]]; rewrite Hv; auto.
Qed.

(** [all_skills_data] holds exactly the tokens of the rows. *)
Lemma elem_of_all_skills_data df t :
  t ∈ all_skills_data df ↔ ∃ row, row ∈ df ∧ t ∈ row_skills row.
Proof.
  unfold all_skills_data, skill_cols. cbn [foldl].
  rewrite !token_union_loop, !elem_of_union, !elem_of_column_tokens.
  setoid_rewrite elem_of_row_skills. split.
  - intros [[[H|H]|H]|H]; [by apply not_elem_of_empty in H| | |];
      destruct H as (row & v & Hrow & Hcol & Ht); exists row; (split; [done|]);
      exists v; auto.
  - intros (row & Hrow & v & [H|[H|H]] & Ht);
      [left; left; right | left; right | right]; by exists row, v.
Qed.

Lemma extract_loop_acc (text : string) (l acc : list string) :
  (∀ t, t ∈ foldl (extract_step text) acc l
        ↔ t ∈ acc ∨ (t ∈ l ∧ PyStr.contains text t = true))
  ∧ (NoDup acc → NoDup (foldl (extract_step text) acc l)).
Proof.
  revert acc. induction l as [|x l IH]; intros acc; cbn [foldl].
  - split; [|done]. intros t. rewrite elem_of_nil. tauto.
  - destruct (IH (extract_step text acc x)) as [IH1 IH2].
    unfold extract_step in *. split.
    + intros t. rewrite IH1, elem_of_cons.
      destruct (PyStr.contains text x) eqn:Hx; cbn [andb].
      * destruct (bool_decide_reflect (x ∈ acc)) as [Hin|Hin]; cbn [negb].
        -- split; [tauto|]. intros [?|[[->|?] ?]]; auto.
        -- rewrite elem_of_app, list_elem_of_singleton.
           split; [intros [[?| ->]|[? ?]]; auto | intros [?|[[->|?] ?]]; auto].
      * split; [tauto|]. intros [?|[[->|?] ?]]; auto. congruence.
    + intros Hacc. apply IH2.
      destruct (PyStr.contains text x); cbn [andb]; [|done].
      destruct (bool_decide_reflect (x ∈ acc)) as [Hin|Hin]; cbn [negb]; [done|].
      apply NoDup_app. split; [done|]. split; [|apply NoDup_singleton].
      intros y Hy Hy'. apply list_elem_of_singleton in Hy'. by subst.
Qed.

Section Extractor.
(** The order in which Python iterates a set: some enumeration of its
    elements, each once. *)
Variable iter : gset string → list string.
Hypothesis iter_perm : ∀ X, iter X ≡ₚ elements X.

(** C8: a token is among the extracted skills exactly when it is a token of
    the dataset and occurs in the lowercased resume text as a substring; no
    token is listed twice; the reply carries the list joined with [", "]. *)
Theorem extracted_iff_substring (df : DataFrame) (text : string) :
  let resume_text := PyStr.lower text in
  let extracted_skills := extract_skills iter df resume_text in
  (∀ t, t ∈ extracted_skills
        ↔ t ∈ all_skills_data df ∧ is_substring t resume_text)
  ∧ NoDup extracted_skills
  ∧ (analyze_resume iter df text).1 = PyStr.join ", " extracted_skills.
Proof.
  intros resume_text extracted_skills.
  destruct (extract_loop_acc resume_text (iter (all_skills_data df)) [])
    as [Hmem Hnodup].
  split; [|split; [apply Hnodup, NoDup_nil_2 | done]].
  intros t. unfold extracted_skills, extract_skills.
  rewrite Hmem, elem_of_nil, iter_perm, elem_of_elements.
  unfold is_substring. rewrite PyStrFacts.contains_spec. tauto.
Qed.

End Extractor.

Lemma extracted_iff_substring_witness :
  "ai" ∈ extract_skills elements mock_df (PyStr.lower "Repair of AIR conditioners")
  ∧ NoDup (extract_skills elements mock_df (PyStr.lower "Repair of AIR conditioners")).
Proof.
  destruct (extracted_iff_substring elements (λ X, reflexivity (elements X))
              mock_df "Repair of AIR conditioners") as (Hmem & Hnodup & _).
  split; [|exact Hnodup].
  apply Hmem. split.
  - apply elem_of_all_skills_data. eexists. split; [left|].
    apply elem_of_row_skills. exists "Programming, AI". split; [by left|].
    apply elem_of_list_to_set. vm_compute. right. left.
  - exists "rep", "r of air conditioners". reflexivity.
Defined.

(** C9: the best result is the sentinel, which has no score, when no token
    was extracted and when the matcher returns nothing for the joined tokens;
    otherwise it is the one entry the matcher returns for them with
    [count = 1]. *)
Theorem best_is_sentinel_or_top
    (iter : gset string → list string) (df : DataFrame) (text : string) :
  let extracted_skills := extract_skills iter df (PyStr.lower text) in
  let career_pred :=
    predict_career_from_skills df (PyStr.join ", " extracted_skills) 1 in
  let best := (analyze_resume iter df text).2 in
  (extracted_skills = [] → best = sentinel)
  ∧ (career_pred = [] → best = sentinel)
  ∧ (∀ r, head career_pred = Some r → best = r ∧ career_pred = [r])
  ∧ sentinel = {| career := Some "N/A"; education := Some "N/A";
                  category := Some "N/A"; score := None |}.
Proof.
  intros extracted_skills career_pred best.
  assert (Hbest : best = match career_pred with r :: _ => r | [] => sentinel end)
    by done.
  assert (Hlen : length career_pred ≤ 1).
  { unfold career_pred. rewrite predict_unfold, length_fmap.
    rewrite slice_to_nonneg by lia. rewrite length_take. lia. }
  split; [|split; [|split; [|done]]].
  - intros E. rewrite Hbest. unfold career_pred. rewrite E.
    by rewrite predict_no_tokens.
  - intros E. by rewrite Hbest, E.
  - intros r Hr. rewrite Hbest.
    clearbody career_pred. clear Hbest.
    destruct career_pred as [|r' [|r'' rest]]; simpl in *.
    + discriminate.
    + by injection Hr as ->.
    + lia.
Qed.

(** C2, on the fallback table: the [known_skills] of
    [get_categories_and_skills] are the nine whole cells, case kept and
    commas inside, while the token set that [analyze_resume] builds from the
    same columns holds the eighteen lowercase tokens. *)
Theorem known_skills_are_whole_cells :
  known_skills mock_df
  = list_to_set
      ["Programming, AI"; "Video Games, Robotics"; "Coding, Reading";
       "Empathy, Biology"; "Patient Care, Research"; "Volunteering, Fitness";
       "Teaching, Communication"; "Mentoring, Learning";
       "Tutoring, Public Speaking"]
  ∧ all_skills_data mock_df
    = list_to_set
        ["programming"; "ai"; "video games"; "robotics"; "coding"; "reading";
         "empathy"; "biology"; "patient care"; "research"; "volunteering";
         "fitness"; "teaching"; "communication"; "mentoring"; "learning";
         "tutoring"; "public speaking"]
  ∧ ("programming" ∉ known_skills mock_df)
  ∧ known_skills mock_df ≠ all_skills_data mock_df.
Proof.
  assert (H1 : "programming" ∉ known_skills mock_df).
  { apply (bool_decide_unpack _). vm_compute. exact I. }
  assert (H2 : "programming" ∈ all_skills_data mock_df).
  { apply (bool_decide_unpack _). vm_compute. exact I. }
  split; [|split; [|split; [done|]]].
  - apply (bool_decide_unpack _). vm_compute. exact I.
  - apply (bool_decide_unpack _). vm_compute. exact I.
  - intros E. apply H1. by rewrite E.
Qed.

(** ** Dataset loading *)

(** C5: whatever [pd.read_csv] did, loading returns a table and raises
    nothing; when the read raised, or gave a table without rows, the table
    is the fallback one, which has three rows in three distinct categories;
    otherwise it is the table read; in every case it has at least one row. *)
Theorem load_never_empty (read_csv : outcome DataFrame) (w : World) :
  ∃ df,
    (load_dataset read_csv w).1 = Returned df
    ∧ df ≠ []
    ∧ (∀ e, read_csv = Raised e → df = mock_df)
    ∧ (read_csv = Returned [] → df = mock_df)
    ∧ (∀ d, read_csv = Returned d → d ≠ [] → df = d)
    ∧ length mock_df = 3
    ∧ NoDup (Career_category <$> mock_df).
Proof.
  assert (Hdistinct : NoDup (Career_category <$> mock_df)).
  { apply (bool_decide_unpack _). vm_compute. exact I. }
  destruct read_csv as [[|row d]|e].
  - exists mock_df. repeat split; try done. by intros d [= <-].
  - exists (row :: d). repeat split; try done. by intros d' [= <-].
  - exists mock_df. repeat split; try done.
Qed.

(** ** Chat bridge *)

Lemma attempt_once_ok client message attempt w text :
  client (requests w) message = Returned text →
  attempt_once client message attempt w
  = (Returned (Some text), mkWorld (S (requests w)) (slept w) (stdout w)).
Proof.
  intros H. unfold attempt_once, try_except, generate_content, mbind, M_bind.
  by rewrite H.
Qed.

Lemma attempt_once_retry client message attempt w e :
  attempt < max_retries - 1 →
  client (requests w) message = Raised e →
  ∃ out, attempt_once client message attempt w
         = (Returned None,
            mkWorld (S (requests w)) (slept w ++ [2 ^ attempt]) out).
Proof.
  intros Hlt H. unfold attempt_once, try_except, generate_content, mbind, M_bind.
  rewrite H. destruct (decide (attempt < max_retries - 1)); [|done].
  by eexists.
Qed.

Lemma attempt_once_give_up client message attempt w e :
  ¬ attempt < max_retries - 1 →
  client (requests w) message = Raised e →
  ∃ out, attempt_once client message attempt w
         = (Returned (Some retries_exhausted),
            mkWorld (S (requests w)) (slept w) out).
Proof.
  intros Hlt H. unfold attempt_once, try_except, generate_content, mbind, M_bind.
  rewrite H. destruct (decide (attempt < max_retries - 1)); [done|].
  by eexists.
Qed.

Lemma retry_loop_step client message attempt rest w r w' :
  attempt_once client message attempt w = (Returned r, w') →
  retry_loop client message (attempt :: rest) w
  = match r with
    | Some s => (Returned s, w')
    | None => retry_loop client message rest w'
    end.
Proof.
  intros H. cbn [retry_loop]. unfold mbind, M_bind. rewrite H.
  by destruct r.
Qed.

(** What a call does, by the outcomes of the requests it sends. *)
Lemma chat_cases (c : Client) (message : string) (w : World) :
  let run := chat_with_gemini (Some c) message w in
  match c (requests w) message with
  | Returned t =>
      run.1 = Returned t ∧ requests run.2 = requests w + 1
      ∧ slept run.2 = slept w
  | Raised _ =>
      match c (requests w + 1) message with
      | Returned t =>
          run.1 = Returned t ∧ requests run.2 = requests w + 2
          ∧ slept run.2 = slept w ++ [1]
      | Raised _ =>
          match c (requests w + 2) message with
          | Returned t =>
              run.1 = Returned t ∧ requests run.2 = requests w + 3
              ∧ slept run.2 = slept w ++ [1; 2]
          | Raised _ =>
              run.1 = Returned retries_exhausted
              ∧ requests run.2 = requests w + 3
              ∧ slept run.2 = slept w ++ [1; 2]
          end
      end
  end.
Proof.
  intros run. unfold run, chat_with_gemini.
  change (seq 0 max_retries) with [0; 1; 2].
  replace (requests w + 1) with (S (requests w)) by lia.
  replace (requests w + 2) with (S (S (requests w))) by lia.
  destruct (c (requests w) message) as [t0|e0] eqn:E0.
  { rewrite (retry_loop_step _ _ _ _ _ _ _ (attempt_once_ok _ _ 0 _ _ E0)).
    simpl. repeat split; lia. }
  destruct (attempt_once_retry c message 0 w e0) as [out0 H0];
    [unfold max_retries; lia | done |].
  rewrite (retry_loop_step _ _ _ _ _ _ _ H0).
  set (w1 := mkWorld _ _ out0).
  destruct (c (S (requests w)) message) as [t1|e1] eqn:E1.
  { rewrite (retry_loop_step _ _ _ _ _ _ _ (attempt_once_ok _ _ 1 w1 _ E1)).
    simpl. repeat split; lia. }
  destruct (attempt_once_retry c message 1 w1 e1) as [out1 H1];
    [unfold max_retries; lia | done |].
  rewrite (retry_loop_step _ _ _ _ _ _ _ H1).
  set (w2 := mkWorld _ _ out1).
  destruct (c (S (S (requests w))) message) as [t2|e2] eqn:E2.
  { rewrite (retry_loop_step _ _ _ _ _ _ _ (attempt_once_ok _ _ 2 w2 _ E2)).
    simpl. rewrite <- app_assoc. repeat split; lia. }
  destruct (attempt_once_give_up c message 2 w2 e2) as [out2 H2];
    [unfold max_retries; lia | done |].
  rewrite (retry_loop_step _ _ _ _ _ _ _ H2).
  simpl. rewrite <- app_assoc. repeat split; lia.
Qed.

(** C4: with a configured client, when the three requests raise, three
    requests are sent, the process sleeps 1 and then 2 seconds, and the
    fixed failure string is returned; when the first request that does not
    raise is attempt [k < 3], its text is returned as it is after [k + 1]
    requests; and the call returns a string, raising nothing, whatever the
    client is or does. *)
Theorem chat_retry_policy (client : Client) (message : string) (w : World) :
  let run := chat_with_gemini (Some client) message w in
  ((∀ k, k < 3 → ∃ e, client (requests w + k) message = Raised e) →
     run.1 = Returned "Error contacting Gemini API after several retries."
     ∧ requests run.2 = requests w + 3
     ∧ slept run.2 = slept w ++ [2 ^ 0; 2 ^ 1]
     ∧ sum_list [2 ^ 0; 2 ^ 1] = 3)
  ∧ (∀ k text,
       k < 3 →
       (∀ j, j < k → ∃ e, client (requests w + j) message = Raised e) →
       client (requests w + k) message = Returned text →
       run.1 = Returned text ∧ requests run.2 = requests w + S k)
  ∧ (∀ c, ∃ reply, (chat_with_gemini c message w).1 = Returned reply).
Proof.
  cbv zeta. split; [|split].
  - intros Hall. pose proof (chat_cases client message w) as H. cbv zeta in H.
    destruct (Hall 0) as [e0 E0]; [lia|]. rewrite Nat.add_0_r in E0.
    destruct (Hall 1) as [e1 E1]; [lia|].
    destruct (Hall 2) as [e2 E2]; [lia|].
    rewrite E0, E1, E2 in H. destruct H as (H1 & H2 & H3). done.
  - intros k text Hk Hbefore Hat.
    pose proof (chat_cases client message w) as H. cbv zeta in H.
    destruct k as [|[|[|k]]]; [| | |lia].
    + rewrite Nat.add_0_r in Hat. rewrite Hat in H. destruct H as (H1 & H2 & H3); split; [done | lia].
    + destruct (Hbefore 0) as [e0 E0]; [lia|]. rewrite Nat.add_0_r in E0.
      rewrite E0, Hat in H. destruct H as (H1 & H2 & H3); split; [done | lia].
    + destruct (Hbefore 0) as [e0 E0]; [lia|]. rewrite Nat.add_0_r in E0.
      destruct (Hbefore 1) as [e1 E1]; [lia|].
      rewrite E0, E1, Hat in H. destruct H as (H1 & H2 & H3); split; [done | lia].
  - intros [c|]; [|by eexists].
    pose proof (chat_cases c message w) as H. cbv zeta in H.
    destruct (c (requests w) message); [by eexists; apply H|].
    destruct (c (requests w + 1) message); [by eexists; apply H|].
    destruct (c (requests w + 2) message); eexists; apply H.
Qed.

(** ** More on the string primitives *)

Module PyStrMore.
Import PyStr PyStrFacts.

Lemma is_space_lower c : is_space (lower_char c) = is_space c.
Proof. each_char c; reflexivity. Qed.

Lemma eqb_comma_lower c : Ascii.eqb (lower_char c) "," = Ascii.eqb c ",".
Proof. each_char c; reflexivity. Qed.

Lemma split_lower s : split "," (lower s) = lower <$> split "," s.
Proof.
  induction s as [|c s IH]; [done|].
  cbn [lower split]. rewrite eqb_comma_lower, IH.
  destruct (Ascii.eqb c ","); [done|]. by destruct (split "," s).
Qed.

Lemma lstrip_lower s : lstrip (lower s) = lower (lstrip s).
Proof.
  induction s as [|c s IH]; [done|].
  cbn [lower lstrip]. rewrite is_space_lower. by destruct (is_space c).
Qed.

Lemma rstrip_lower s : rstrip (lower s) = lower (rstrip s).
Proof.
  induction s as [|c s IH]; [done|].
  cbn [lower rstrip]. rewrite IH, is_space_lower.
  destruct (rstrip s); cbn [lower]; by destruct (is_space c).
Qed.

Lemma strip_lower s : strip (lower s) = lower (strip s).
Proof. unfold strip. by rewrite lstrip_lower, rstrip_lower. Qed.

Lemma truthy_lower s : truthy (lower s) = truthy s.
Proof. by destruct s. Qed.

Definition clean_start (s : string) : bool :=
  match s with
  | EmptyString => true
  | String c _ => negb (is_space c)
  end.

Lemma lstrip_clean s : clean_start (lstrip s) = true.
Proof.
  induction s as [|c s IH]; [done|]. cbn [lstrip].
  destruct (is_space c) eqn:E; [done|]. cbn. by rewrite E.
Qed.

Lemma lstrip_id s : clean_start s = true → lstrip s = s.
Proof. destruct s as [|c s]; [done|]. cbn. by destruct (is_space c). Qed.

Lemma rstrip_clean s : clean_start s = true → clean_start (rstrip s) = true.
Proof.
  destruct s as [|c s]; [done|]. cbn [clean_start rstrip].
  destruct (rstrip s); [|by cbn].
  destruct (is_space c) eqn:E; cbn; [done|]. intros _. by rewrite E.
Qed.

Lemma rstrip_idemp s : rstrip (rstrip s) = rstrip s.
Proof.
  induction s as [|c s IH]; [done|]. cbn [rstrip].
  destruct (rstrip s) as [|x r] eqn:E.
  - destruct (is_space c) eqn:Hc; [done|]. cbn. by rewrite Hc.
  - cbn [rstrip] in *. by rewrite IH.
Qed.

Lemma strip_idemp s : strip (strip s) = strip s.
Proof.
  unfold strip.
  rewrite (lstrip_id (rstrip (lstrip s))) by apply rstrip_clean, lstrip_clean.
  apply rstrip_idemp.
Qed.

Lemma mentions_lstrip c s : mentions c s = false → mentions c (lstrip s) = false.
Proof.
  induction s as [|x s IH]; [done|]. cbn [mentions lstrip]. intros H.
  apply orb_false_iff in H as [Hx Hs].
  destruct (is_space x); [by apply IH|]. cbn. by rewrite Hx, Hs.
Qed.

Lemma mentions_rstrip c s : mentions c s = false → mentions c (rstrip s) = false.
Proof.
  induction s as [|x s IH]; [done|]. cbn [mentions rstrip]. intros H.
  apply orb_false_iff in H as [Hx Hs]. specialize (IH Hs).
  destruct (rstrip s) as [|y r].
  - destruct (is_space x); [done|]. cbn. by rewrite Hx.
  - cbn [mentions] in *. by rewrite Hx, IH.
Qed.

Lemma mentions_strip c s : mentions c s = false → mentions c (strip s) = false.
Proof. intros H. by apply mentions_rstrip, mentions_lstrip. Qed.

Lemma mentions_comma_lower s : mentions "," (lower s) = mentions "," s.
Proof.
  induction s as [|x s IH]; [done|]. cbn [lower mentions].
  by rewrite eqb_comma_lower, IH.
Qed.

(** The pieces of a split do not hold the separator. *)
Lemma split_pieces_free sep s : Forall (λ p, mentions sep p = false) (split sep s).
Proof.
  induction s as [|c s IH]; [by repeat constructor|]. cbn [split].
  destruct (Ascii.eqb c sep) eqn:E; [by constructor|].
  destruct (split sep s) as [|h t]; [by repeat constructor; cbn; rewrite E|].
  apply Forall_cons in IH as [Hh Ht]. constructor; [|done].
  cbn. by rewrite E, Hh.
Qed.

(** Without the separator there is one piece. *)
Lemma split_free sep s : mentions sep s = false → split sep s = [s].
Proof.
  induction s as [|c s IH]; [done|]. cbn [mentions split]. intros H.
  apply orb_false_iff in H as [Hc Hs]. by rewrite Hc, (IH Hs).
Qed.

End PyStrMore.

(** ** Tokens are well formed *)

Lemma tokens_lower x : tokens (PyStr.lower x) = tokens x.
Proof.
  unfold tokens. rewrite PyStrMore.split_lower.
  induction (PyStr.split "," x) as [|p l IH]; [done|].
  rewrite fmap_cons, !filter_cons, PyStrMore.strip_lower, PyStrMore.truthy_lower.
  destruct (decide (PyStr.truthy (PyStr.strip p) = true)); [|done].
  by rewrite !fmap_cons, IH, PyStrMore.strip_lower, PyStrFacts.lower_idemp.
Qed.

Lemma tokens_case a b : differ_only_in_case a b → tokens a = tokens b.
Proof.
  intros H. apply PyStrFacts.lower_eq_iff in H.
  by rewrite <- (tokens_lower a), <- (tokens_lower b), H.
Qed.

Lemma tokens_are_tokens x t : t ∈ tokens x → is_token t.
Proof.
  unfold tokens. intros H. apply list_elem_of_fmap in H as (p & -> & Hp).
  apply list_elem_of_filter in Hp as [Htruthy Hp].
  pose proof (PyStrMore.split_pieces_free "," x) as Hfree.
  rewrite Forall_forall in Hfree. specialize (Hfree p Hp).
  repeat split.
  - intros E. destruct (PyStr.strip p); [done | discriminate].
  - apply PyStrFacts.lower_idemp.
  - by rewrite PyStrMore.strip_lower, PyStrMore.strip_idemp.
  - rewrite PyStrMore.mentions_comma_lower. by apply PyStrMore.mentions_strip.
Qed.

(** A token parses to itself. *)
Lemma tokens_of_token t : is_token t → tokens t = [t].
Proof.
  intros (Hne & Hlower & Hstrip & Hfree). unfold tokens.
  rewrite (PyStrMore.split_free _ _ Hfree), filter_cons, filter_nil, Hstrip.
  destruct (decide (PyStr.truthy t = true)) as [_|Hf].
  - by rewrite list_fmap_singleton, Hstrip, Hlower.
  - destruct t; [done | by destruct Hf].
Qed.

Lemma token_set_of_tokens (l : list string) :
  Forall is_token l → token_set (PyStr.join ", " l) = list_to_set l.
Proof.
  intros Hl. rewrite token_set_join.
  induction Hl as [|t l Ht Hl IH]; [done|].
  rewrite fmap_cons, union_list_cons, IH, list_to_set_cons.
  unfold token_set. rewrite (tokens_of_token t Ht). cbn.
  by rewrite (right_id_L ∅ (∪)).
Qed.

(** ** More on the skill matcher *)

(** X1: the matcher ignores the letter case of the query. *)
Theorem predict_case_insensitive
    (df : DataFrame) (skills_input skills_input' : string) (count : Z) :
  differ_only_in_case skills_input skills_input' →
  predict_career_from_skills df skills_input count
  = predict_career_from_skills df skills_input' count.
Proof.
  intros H. rewrite !predict_unfold. unfold token_set.
  by rewrite (tokens_case _ _ H).
Qed.

Lemma predict_case_insensitive_witness :
  predict_career_from_skills mock_df "coding, AI" 2
  = predict_career_from_skills mock_df "CODING, ai" 2.
Proof.
  apply (predict_case_insensitive mock_df "coding, AI" "CODING, ai" 2).
  vm_compute. tauto.
Defined.

(** X2: asking for fewer results gives a prefix of what asking for more
    gives. *)
Theorem predict_prefix (df : DataFrame) (skills_input : string) (k k' : Z) :
  (0 ≤ k ≤ k')%Z →
  predict_career_from_skills df skills_input k
  = take (Z.to_nat k) (predict_career_from_skills df skills_input k').
Proof.
  intros Hk. rewrite !predict_unfold, !slice_to_nonneg by lia.
  rewrite <- fmap_take, take_take. do 2 f_equal. lia.
Qed.

Lemma predict_prefix_witness :
  predict_career_from_skills mock_df "reading, ai, biology" 1
  = take 1 (predict_career_from_skills mock_df "reading, ai, biology" 3).
Proof. apply (predict_prefix mock_df "reading, ai, biology" 1 3). lia. Defined.

(** X3: a count of zero gives no result, and a negative count gives the
    full ranking without its last [-count] entries. *)
Theorem predict_count_not_positive
    (df : DataFrame) (skills_input : string) (count : Z) :
  (count < 0)%Z →
  let full := predict_career_from_skills df skills_input (Z.of_nat (length df)) in
  length full = length (filter (λ row, 0 < overlap (token_set skills_input) row) df)
  ∧ predict_career_from_skills df skills_input count
    = take (length full - Z.to_nat (- count)) full
  ∧ predict_career_from_skills df skills_input 0 = [].
Proof.
  intros Hcount full.
  pose proof (Permutation_length (ranked_rows_perm (token_set skills_input) df)) as HL.
  assert (Hshort : length (ranked_rows (token_set skills_input) df) ≤ length df).
  { rewrite HL. apply length_filter. }
  assert (Hfull : full = emit (token_set skills_input)
                           <$> ranked_rows (token_set skills_input) df).
  { unfold full. rewrite predict_unfold, slice_to_nonneg by lia.
    by rewrite take_ge by lia. }
  split; [by rewrite Hfull, length_fmap, HL|].
  split; [|by rewrite predict_unfold].
  rewrite Hfull, length_fmap, <- fmap_take, predict_unfold. f_equal.
  unfold slice_to. destruct (Z.leb_spec 0 count) as [H0|H0]; [lia | done].
Qed.

Lemma predict_count_not_positive_witness :
  predict_career_from_skills mock_df "reading, ai, biology" (-1)
  = take (length (predict_career_from_skills mock_df "reading, ai, biology" 3) - 1)
         (predict_career_from_skills mock_df "reading, ai, biology" 3).
Proof.
  apply (predict_count_not_positive mock_df "reading, ai, biology" (-1)). lia.
Defined.

(** X4: the order in which the query lists its skills does not matter, a
    skill listed twice counts once, and no score exceeds the number of
    distinct tokens of the query. *)
Theorem predict_query_as_set (df : DataFrame) (a b : string) (count : Z) :
  predict_career_from_skills df (a +:+ ", " +:+ b) count
  = predict_career_from_skills df (b +:+ ", " +:+ a) count
  ∧ predict_career_from_skills df (a +:+ ", " +:+ a) count
    = predict_career_from_skills df a count
  ∧ Forall (λ r, ∃ n, score r = Some n ∧ n ≤ size (token_set a))
           (predict_career_from_skills df a count).
Proof.
  rewrite !predict_unfold. unfold token_set.
  rewrite !tokens_glue, !list_to_set_app_L.
  split; [by rewrite (comm_L (∪))|].
  split; [by rewrite (idemp_L (∪))|].
  apply Forall_fmap, Forall_forall. intros row _. eexists. split; [done|].
  apply overlap_le.
Qed.

(** The best entry when some row holds every token of the query. *)
Lemma predict_full_match df skills_input row :
  row ∈ df →
  token_set skills_input ≠ ∅ →
  token_set skills_input ⊆ row_skills row →
  ∃ x, x ∈ df
       ∧ token_set skills_input ⊆ row_skills x
       ∧ predict_career_from_skills df skills_input 1
         = [emit (token_set skills_input) x]
       ∧ overlap (token_set skills_input) x = size (token_set skills_input).
Proof.
  set (q := token_set skills_input). intros Hrow Hne Hsub.
  assert (Hn : 0 < size q).
  { destruct (decide (size q = 0)) as [E|]; [|lia].
    apply size_empty_inv in E. destruct Hne. by apply leibniz_equiv. }
  assert (Hfull : overlap q row = size q) by (by apply overlap_full).
  assert (Hin : row ∈ ranked_rows q df).
  { rewrite ranked_rows_perm. apply list_elem_of_filter. split; [lia | done]. }
  pose proof (ranked_rows_descending q df) as Hsorted.
  pose proof (ranked_rows_perm q df) as Hperm.
  rewrite predict_unfold, slice_to_nonneg by lia. fold q.
  destruct (ranked_rows q df) as [|x rest]; [by apply elem_of_nil in Hin|].
  assert (Hx : overlap q x = size q).
  { pose proof (overlap_le q x).
    apply elem_of_cons in Hin as [->|Hin]; [done|].
    apply StronglySorted_cons in Hsorted as [Hall _].
    rewrite Forall_forall in Hall. specialize (Hall _ Hin). simpl in Hall. lia. }
  exists x. split.
  { assert (x ∈ matching_rows q df) as Hm by (rewrite <- Hperm; left).
    by apply list_elem_of_filter in Hm as [_ ?]. }
  split; [by apply overlap_full|]. split; [done|done].
Qed.

(** X5: a suggestion returned for a category, given back to the matcher,
    is matched by some row of the dataset in full: if it holds a token at
    all, the one result for [count = 1] has as score the number of distinct
    tokens of the suggestion. *)
Theorem suggestion_scores_in_full
    (df : DataFrame) (category suggestion : string) :
  suggestion ∈ get_skills_for_category df category →
  token_set suggestion ≠ ∅ →
  ∃ r, predict_career_from_skills df suggestion 1 = [r]
       ∧ score r = Some (size (token_set suggestion)).
Proof.
  intros Hs Hne. unfold get_skills_for_category in Hs.
  rewrite suggestions_loop_acc in Hs. cbn [app] in Hs.
  apply list_elem_of_fmap in Hs as (cells & -> & Hcells).
  apply list_elem_of_filter in Hcells as [_ Hcells].
  apply list_elem_of_fmap in Hcells as (row & -> & Hrow).
  apply list_elem_of_filter in Hrow as [_ Hrow].
  rewrite <- present_fields_cells in *.
  destruct (predict_full_match df (PyStr.join ", " (present_fields row)) row)
    as (x & _ & _ & Hpred & Hx); [done | done | by rewrite token_set_combined |].
  eexists. split; [exact Hpred|]. unfold emit. cbn [score]. by rewrite Hx.
Qed.

Lemma suggestion_scores_in_full_witness :
  ∃ r, predict_career_from_skills shadow_df "python" 1 = [r]
       ∧ score r = Some (size (token_set "python")).
Proof.
  apply (suggestion_scores_in_full shadow_df "Technology" "python").
  - vm_compute. right. left.
  - vm_compute. discriminate.
Defined.

(** ** More on the resume extractor *)

Lemma row_skills_tokens row t : t ∈ row_skills row → is_token t.
Proof.
  intros H. apply elem_of_row_skills in H as (v & _ & Hv).
  apply elem_of_list_to_set in Hv. by apply tokens_are_tokens in Hv.
Qed.

Lemma all_skills_data_tokens df t : t ∈ all_skills_data df → is_token t.
Proof.
  intros H. apply elem_of_all_skills_data in H as (row & _ & Hrow).
  by apply row_skills_tokens in Hrow.
Qed.

(** X6: every element of the token set built from the table, and of the
    token set of each row, is non-empty, lowercase, trimmed and free of
    commas, and parses back to itself alone. *)
Theorem dataset_tokens_well_formed (df : DataFrame) :
  set_Forall (λ t, is_token t ∧ tokens t = [t]) (all_skills_data df)
  ∧ Forall (λ row, set_Forall (λ t, is_token t ∧ t ∈ all_skills_data df)
                              (row_skills row)) df.
Proof.
  split.
  - intros t Ht. apply all_skills_data_tokens in Ht.
    split; [done | by apply tokens_of_token].
  - apply Forall_forall. intros row Hrow t Ht.
    split; [by apply row_skills_tokens in Ht|].
    apply elem_of_all_skills_data. by exists row.
Qed.

Section ExtractorOrder.
Variable iter : gset string → list string.
Hypothesis iter_perm : ∀ X, iter X ≡ₚ elements X.

Lemma extract_skills_spec df text :
  (∀ t, t ∈ extract_skills iter df text
        ↔ t ∈ all_skills_data df ∧ PyStr.contains text t = true)
  ∧ NoDup (extract_skills iter df text)
  ∧ Forall is_token (extract_skills iter df text).
Proof.
  destruct (extract_loop_acc text (iter (all_skills_data df)) []) as [Hmem Hnodup].
  assert (Hiff : ∀ t, t ∈ extract_skills iter df text
                      ↔ t ∈ all_skills_data df ∧ PyStr.contains text t = true).
  { intros t. unfold extract_skills.
    rewrite Hmem, elem_of_nil, iter_perm, elem_of_elements. tauto. }
  split; [done|]. split; [apply Hnodup, NoDup_nil_2|].
  apply Forall_forall. intros t Ht. apply Hiff in Ht as [Ht _].
  by apply all_skills_data_tokens in Ht.
Qed.

(** The query built from the extracted skills is the set of them. *)
Lemma extracted_query df text :
  token_set (PyStr.join ", " (extract_skills iter df text))
  = list_to_set (extract_skills iter df text).
Proof. apply token_set_of_tokens, extract_skills_spec. Qed.

(** X7: the best result is the sentinel exactly when no skill was
    extracted; otherwise it carries a score between 1 and the number of
    extracted skills. *)
Theorem sentinel_iff_nothing_extracted (df : DataFrame) (text : string) :
  let extracted_skills := extract_skills iter df (PyStr.lower text) in
  let best := (analyze_resume iter df text).2 in
  (best = sentinel ↔ extracted_skills = [])
  ∧ (extracted_skills ≠ [] →
     ∃ n, score best = Some n ∧ 1 ≤ n ≤ length extracted_skills).
Proof.
  intros ex best.
  destruct (extract_skills_spec df (PyStr.lower text)) as (Hmem & Hnodup & Htok).
  fold ex in Hmem, Hnodup, Htok.
  assert (Hbest : best = match predict_career_from_skills df (PyStr.join ", " ex) 1
                         with r :: _ => r | [] => sentinel end) by done.
  assert (Hsome : ex ≠ [] →
            ∃ n, score best = Some n ∧ 1 ≤ n ≤ length ex).
  { intros Hne. destruct ex as [|t ex'] eqn:Eex; [done|]. rewrite <- Eex in *.
    assert (t ∈ ex) as Ht by (rewrite Eex; left).
    pose proof Ht as Hdata. apply Hmem in Hdata as [Hdata _].
    apply elem_of_all_skills_data in Hdata as (row & Hrow & Hskill).
    rewrite Hbest, predict_unfold, slice_to_nonneg by lia.
    unfold ex at 1 2. rewrite extracted_query. fold ex.
    set (q := list_to_set ex : gset string).
    assert (Hov : 0 < overlap q row).
    { unfold overlap. destruct (decide (size (q ∩ row_skills row) = 0)) as [E|]; [|lia].
      apply size_empty_inv in E. exfalso. apply (not_elem_of_empty (C:=gset string) t).
      rewrite <- E. apply elem_of_intersection. split; [|done].
      by apply elem_of_list_to_set. }
    assert (row ∈ ranked_rows q df) as Hin.
    { rewrite ranked_rows_perm. by apply list_elem_of_filter. }
    pose proof (ranked_rows_positive q df) as Hpos.
    destruct (ranked_rows q df) as [|x rest]; [by apply elem_of_nil in Hin|].
    apply Forall_cons in Hpos as [Hx _].
    exists (overlap q x). split; [done|]. split; [lia|].
    etrans; [apply overlap_le|]. unfold q.
    by rewrite size_list_to_set. }
  split; [|done]. split.
  - intros E. destruct ex as [|t ex'] eqn:Eex; [done|]. exfalso.
    destruct Hsome as (n & Hn & _); [done|]. by rewrite E in Hn.
  - intros E. rewrite Hbest, E. by rewrite predict_no_tokens.
Qed.

(** X8: a request without [resume_text], or with an empty one, is answered
    with no extracted skill and the sentinel. *)
Theorem empty_resume_gives_sentinel (df : DataFrame) (data : gmap string string) :
  get_or data "resume_text" "" = "" →
  analyze_resume_request iter df data = ("", sentinel).
Proof.
  intros Hget. unfold analyze_resume_request. rewrite Hget.
  destruct (extract_skills_spec df (PyStr.lower "")) as (Hmem & _ & Htok).
  assert (Hex : extract_skills iter df (PyStr.lower "") = []).
  { destruct (extract_skills iter df (PyStr.lower "")) as [|t l]; [done|].
    exfalso. apply Forall_cons in Htok as [(Hne & _) _].
    destruct (Hmem t) as [[_ Hc] _]; [left|].
    destruct t; [done | discriminate]. }
  unfold analyze_resume. rewrite Hex. cbn [PyStr.join].
  by rewrite predict_no_tokens.
Qed.

End ExtractorOrder.

Lemma sentinel_iff_nothing_extracted_witness :
  (analyze_resume elements mock_df "I enjoy READING").2 = sentinel
  ↔ extract_skills elements mock_df (PyStr.lower "I enjoy READING") = [].
Proof.
  exact (proj1 (sentinel_iff_nothing_extracted elements
                  (λ X, reflexivity (elements X)) mock_df "I enjoy READING")).
Defined.

Lemma empty_resume_gives_sentinel_witness :
  analyze_resume_request elements mock_df {[ "name" := "Ada" ]} = ("", sentinel).
Proof.
  apply (empty_resume_gives_sentinel elements (λ X, reflexivity (elements X))).
  reflexivity.
Defined.

(** X9: whatever the order in which the token set is iterated, the same
    skills are extracted, each once, and the best result is the same. *)
Theorem extraction_order_irrelevant
    (iter iter' : gset string → list string) (df : DataFrame) (text : string) :
  (∀ X, iter X ≡ₚ elements X) →
  (∀ X, iter' X ≡ₚ elements X) →
  extract_skills iter df (PyStr.lower text)
    ≡ₚ extract_skills iter' df (PyStr.lower text)
  ∧ (analyze_resume iter df text).2 = (analyze_resume iter' df text).2.
Proof.
  intros Hiter Hiter'.
  destruct (extract_skills_spec iter Hiter df (PyStr.lower text)) as (Hm & Hn & _).
  destruct (extract_skills_spec iter' Hiter' df (PyStr.lower text)) as (Hm' & Hn' & _).
  assert (Hperm : extract_skills iter df (PyStr.lower text)
                    ≡ₚ extract_skills iter' df (PyStr.lower text)).
  { apply NoDup_Permutation; [done | done |]. intros t. by rewrite Hm, Hm'. }
  split; [done|].
  unfold analyze_resume. cbn [snd]. rewrite !predict_unfold.
  rewrite !extracted_query by done. by rewrite Hperm.
Qed.

Lemma extraction_order_irrelevant_witness :
  (analyze_resume elements mock_df "Coding, reading and biology").2
  = (analyze_resume (λ X, reverse (elements X)) mock_df "Coding, reading and biology").2.
Proof.
  refine (proj2 (extraction_order_irrelevant elements (λ X, reverse (elements X))
                   mock_df "Coding, reading and biology" _ _)).
  - intros X. reflexivity.
  - intros X. apply reverse_Permutation.
Defined.

(** ** Categories *)

Lemma unique_loop_acc (l acc : list string) :
  (∀ x, x ∈ foldl (λ seen x, if bool_decide (x ∈ seen) then seen else seen ++ [x])
                  acc l
        ↔ x ∈ acc ∨ x ∈ l)
  ∧ (NoDup acc →
     NoDup (foldl (λ seen x, if bool_decide (x ∈ seen) then seen else seen ++ [x])
                  acc l)).
Proof.
  revert acc. induction l as [|y l IH]; intros acc; cbn [foldl].
  - split; [|done]. intros x. rewrite elem_of_nil. tauto.
  - destruct (bool_decide_reflect (y ∈ acc)) as [Hy|Hy].
    + destruct (IH acc) as [IH1 IH2]. split; [|done].
      intros x. rewrite IH1, elem_of_cons.
      split; [tauto|]. intros [?|[->|?]]; auto.
    + destruct (IH (acc ++ [y])) as [IH1 IH2]. split.
      * intros x. rewrite IH1, elem_of_app, list_elem_of_singleton, elem_of_cons.
        tauto.
      * intros Hacc. apply IH2, NoDup_app. split; [done|].
        split; [|apply NoDup_singleton].
        intros z Hz Hz'. apply list_elem_of_singleton in Hz'. by subst.
Qed.

Lemma unique_spec (l : list string) :
  (∀ x, x ∈ unique l ↔ x ∈ l) ∧ NoDup (unique l).
Proof.
  destruct (unique_loop_acc l []) as [H1 H2]. split.
  - intros x. unfold unique. rewrite H1, elem_of_nil. tauto.
  - apply H2, NoDup_nil_2.
Qed.

Lemma get_categories_spec df :
  StronglySorted String.le (get_categories df)
  ∧ NoDup (get_categories df)
  ∧ ∀ c, c ∈ get_categories df ↔ ∃ row, row ∈ df ∧ Career_category row = Some c.
Proof.
  unfold get_categories.
  destruct (unique_spec (omap Career_category df)) as [Hmem Hnodup].
  split; [apply StronglySorted_merge_sort; apply _|].
  split; [by rewrite merge_sort_Permutation|].
  intros c. rewrite merge_sort_Permutation, Hmem. apply list_elem_of_omap.
Qed.

Lemma sorted_distinct_strict (l : list string) :
  StronglySorted String.le l → NoDup l →
  StronglySorted (λ a b, String.le a b ∧ a ≠ b) l.
Proof.
  induction 1 as [|c l Hl IH Hc]; intros Hnodup; [constructor|].
  apply NoDup_cons in Hnodup as [Hnotin Hnodup].
  constructor; [by apply IH|].
  apply Forall_forall. intros d Hd. rewrite Forall_forall in Hc.
  split; [by apply Hc|]. by intros ->.
Qed.

(** X10: the categories are the labels of the rows, a missing label apart:
    each once, in ascending code point order, and told apart by case. *)
Theorem categories_sorted_distinct (df : DataFrame) :
  StronglySorted (λ a b, String.le a b ∧ a ≠ b) (get_categories df)
  ∧ (∀ c, c ∈ get_categories df ↔ ∃ row, row ∈ df ∧ Career_category row = Some c).
Proof.
  destruct (get_categories_spec df) as (Hsorted & Hnodup & Hmem).
  split; [by apply sorted_distinct_strict | done].
Qed.

(** X11: the categories depend on the set of labels alone: two tables with
    the same labels, in whatever order and number, give the same list. *)
Theorem categories_depend_on_labels (df df' : DataFrame) :
  (∀ c, (∃ row, row ∈ df ∧ Career_category row = Some c)
        ↔ (∃ row, row ∈ df' ∧ Career_category row = Some c)) →
  get_categories df = get_categories df'.
Proof.
  intros Hsame.
  destruct (get_categories_spec df) as (Hsorted & Hnodup & Hmem).
  destruct (get_categories_spec df') as (Hsorted' & Hnodup' & Hmem').
  apply (StronglySorted_unique String.le); [done | done |].
  apply NoDup_Permutation; [done | done |].
  intros c. by rewrite Hmem, Hmem', Hsame.
Qed.

Lemma categories_depend_on_labels_witness :
  get_categories (mock_df ++ reverse mock_df) = get_categories mock_df.
Proof.
  apply (categories_depend_on_labels (mock_df ++ reverse mock_df) mock_df).
  intros c. split; intros (row & Hrow & Hc); exists row; (split; [|done]).
  - apply elem_of_app in Hrow as [Hrow|Hrow]; [done|].
    by apply elem_of_reverse in Hrow.
  - apply elem_of_app. by left.
Defined.

Lemma differ_only_in_case_sym a b :
  differ_only_in_case a b → differ_only_in_case b a.
Proof. rewrite <- !PyStrFacts.lower_eq_iff. done. Qed.

(** X12: a row that has a label and at least one skill cell is reachable
    from the categories: its label is listed, and its joined cells are among
    the rows returned for that label and for any spelling of it in another
    case; a request without [category] asks for the empty label. *)
Theorem labelled_row_is_listed
    (df : DataFrame) (row : Row) (label category : string) :
  row ∈ df →
  Career_category row = Some label →
  omap id [Skill row; Interests row; Hobby row] ≠ [] →
  differ_only_in_case label category →
  label ∈ get_categories df
  ∧ PyStr.join ", " (omap id [Skill row; Interests row; Hobby row])
      ∈ get_category_rows df {[ "category" := category ]}
  ∧ get_category_rows df ∅ = get_skills_for_category df "".
Proof.
  intros Hrow Hlabel Hcells Hcase.
  split; [apply get_categories_spec; by exists row|].
  split; [|done].
  unfold get_category_rows, get_or. rewrite lookup_singleton_eq.
  unfold get_skills_for_category. rewrite suggestions_loop_acc. cbn [app].
  apply list_elem_of_fmap. exists (present_cells row). split; [done|].
  apply list_elem_of_filter. split; [done|].
  apply list_elem_of_fmap. exists row. split; [done|].
  apply list_elem_of_filter. split; [|done].
  apply category_matches_spec. by exists label.
Qed.

Lemma labelled_row_is_listed_witness :
  "Healthcare" ∈ get_categories mock_df
  ∧ "Empathy, Biology, Patient Care, Research, Volunteering, Fitness"
      ∈ get_category_rows mock_df {[ "category" := "HEALTHcare" ]}.
Proof.
  destruct (labelled_row_is_listed mock_df
              (mkRow (Some "Healthcare") (Some "Empathy, Biology")
                     (Some "Patient Care, Research") (Some "Volunteering, Fitness")
                     (Some "Nurse") (Some "BSN"))
              "Healthcare" "HEALTHcare") as (H1 & H2 & _).
  - right. left.
  - reflexivity.
  - discriminate.
  - vm_compute. tauto.
  - split; [exact H1 | exact H2].
Defined.

(** ** Known skills *)

Lemma complete_row_cells row :
  mapM (λ col : Row → cell, col row) skill_cols
  = match Skill row, Interests row, Hobby row with
    | Some a, Some b, Some c => Some [a; b; c]
    | _, _, _ => None
    end.
Proof.
  unfold skill_cols. cbn.
  by destruct (Skill row), (Interests row), (Hobby row).
Qed.

Lemma elem_of_dropna_flatten df v :
  v ∈ dropna_flatten df
  ↔ ∃ row, row ∈ df ∧ complete_row row ∧ v ∈ present_cells row.
Proof.
  unfold dropna_flatten, complete_row, present_cells.
  rewrite list_elem_of_In, in_concat. split.
  - intros (cells & Hcells & Hv). apply list_elem_of_In in Hcells, Hv.
    apply list_elem_of_omap in Hcells as (row & Hrow & Hm).
    rewrite complete_row_cells in Hm. exists row. split; [done|].
    destruct (Skill row), (Interests row), (Hobby row); try discriminate.
    injection Hm as <-. split; [by repeat split; eexists | done].
  - intros (row & Hrow & (Ha & Hb & Hc) & Hv).
    destruct Ha as [a Ha], Hb as [b Hb], Hc as [c Hc].
    rewrite Ha, Hb, Hc in Hv. exists [a; b; c].
    split; apply list_elem_of_In; [|done].
    apply list_elem_of_omap. exists row. split; [done|].
    by rewrite complete_row_cells, Ha, Hb, Hc.
Qed.

(** X13: the known skills are the trimmed, non-empty cells of the rows
    that have all three skill cells; a row with a missing skill cell adds
    nothing, whatever its other cells hold. *)
Theorem known_skills_from_complete_rows (df : DataFrame) (t : string) :
  (t ∈ known_skills df
   ↔ ∃ row v, row ∈ df
              ∧ (Skill row = Some v ∨ Interests row = Some v ∨ Hobby row = Some v)
              ∧ is_Some (Skill row) ∧ is_Some (Interests row) ∧ is_Some (Hobby row)
              ∧ t = PyStr.strip v ∧ t ≠ "")
  ∧ (∀ row, ¬ complete_row row → known_skills (row :: df) = known_skills df).
Proof.
  split.
  - unfold known_skills. rewrite elem_of_list_to_set, list_elem_of_fmap. split.
    + intros (v & -> & Hv). apply list_elem_of_filter in Hv as [Htruthy Hv].
      apply elem_of_dropna_flatten in Hv as (row & Hrow & Hcomplete & Hv).
      exists row, v. split; [done|].
      split.
      { unfold present_cells in Hv.
        apply list_elem_of_omap in Hv as (c & Hc & Hv). simpl in Hv. subst c.
        rewrite !elem_of_cons in Hc.
        destruct Hc as [Hc|[Hc|[Hc|Hc]]];
          [left | right; left | right; right | by apply elem_of_nil in Hc]; done. }
      destruct Hcomplete as (? & ? & ?). repeat split; try done.
      intros E. by rewrite E in Htruthy.
    + intros (row & v & Hrow & Hv & Ha & Hb & Hc & -> & Hne).
      exists v. split; [done|]. apply list_elem_of_filter. split.
      { by destruct (PyStr.strip v). }
      apply elem_of_dropna_flatten. exists row. split; [done|].
      split; [done|]. unfold present_cells.
      apply list_elem_of_omap. exists (Some v). split; [|done].
      rewrite !elem_of_cons. destruct Hv as [Hv|[Hv|Hv]]; rewrite Hv; auto.
  - intros row Hrow. unfold known_skills, dropna_flatten. cbn [omap list_omap].
    rewrite complete_row_cells.
    destruct (Skill row) eqn:Ha, (Interests row) eqn:Hb, (Hobby row) eqn:Hc;
      try done.
    destruct Hrow. unfold complete_row. rewrite Ha, Hb, Hc. by repeat split; eexists.
Qed.

(** ** Effects of loading, of the client set-up and of a chat *)

(** X14: loading sends no request and does not sleep; it prints nothing
    when the table read has rows, and otherwise one line that names the file
    and the reason (the exception's message, or "Empty DataFrame"). *)
Theorem load_effects (read_csv : outcome DataFrame) (w : World) :
  let w' := (load_dataset read_csv w).2 in
  requests w' = requests w
  ∧ slept w' = slept w
  ∧ stdout w'
    = stdout w
      ++ match read_csv with
         | Returned (_ :: _) => []
         | Returned [] =>
             ["Error loading CSV at data/career_dataset_cleaned.csv: Empty DataFrame. Using a mock DataFrame."]
         | Raised e =>
             ["Error loading CSV at data/career_dataset_cleaned.csv: " +:+ e
              +:+ ". Using a mock DataFrame."]
         end.
Proof.
  destruct read_csv as [[|row d]|e]; cbn; repeat split; try done.
  by rewrite app_nil_r.
Qed.

(** X15: with a client, a chat sends between one and three requests, each
    after the failure of the one before; it sleeps 1 second after a first
    failure and 2 after a second, never after the third; and its reply is
    the text of the last request sent, or the fixed failure string when all
    three raised. *)
Theorem chat_bounded (client : Client) (message : string) (w : World) :
  let run := chat_with_gemini (Some client) message w in
  ∃ sent,
    1 ≤ sent ≤ 3
    ∧ requests run.2 = requests w + sent
    ∧ slept run.2 = slept w ++ take (sent - 1) [1; 2]
    ∧ (∀ k, k < sent - 1 → ∃ e, client (requests w + k) message = Raised e)
    ∧ ((∃ text, client (requests w + (sent - 1)) message = Returned text
                ∧ run.1 = Returned text)
       ∨ (sent = 3
          ∧ (∃ e, client (requests w + 2) message = Raised e)
          ∧ run.1 = Returned retries_exhausted)).
Proof.
  cbv zeta. pose proof (chat_cases client message w) as H. cbv zeta in H.
  destruct (client (requests w) message) as [t0|e0] eqn:E0.
  { destruct H as (H1 & H2 & H3). exists 1.
    split; [lia|]. split; [done|]. split; [by rewrite H3, app_nil_r|].
    split; [intros k Hk; lia|]. left. exists t0.
    by rewrite Nat.add_0_r. }
  destruct (client (requests w + 1) message) as [t1|e1] eqn:E1.
  { destruct H as (H1 & H2 & H3). exists 2.
    split; [lia|]. split; [done|]. split; [done|].
    split.
    - intros k Hk. assert (k = 0) as -> by lia.
      rewrite Nat.add_0_r. by eexists.
    - left. by exists t1. }
  assert (Hearly : ∀ k, k < 3 - 1 → ∃ e, client (requests w + k) message = Raised e).
  { intros k Hk. destruct k as [|[|k]]; [| |lia].
    - rewrite Nat.add_0_r. by eexists.
    - by eexists. }
  destruct (client (requests w + 2) message) as [t2|e2] eqn:E2;
    destruct H as (H1 & H2 & H3); exists 3;
    (split; [lia|]); (split; [done|]); (split; [done|]); (split; [done|]).
  - left. by exists t2.
  - right. split; [done|]. split; [by eexists | done].
Qed.

(** X16: setting up the client raises nothing and sends nothing; when the
    constructor raises, one line is printed, the client stays unset, and
    every chat request is then answered at once with the fixed message,
    without a request, a sleep or a line of output; an empty key is treated
    as no key. *)
Theorem failed_init_disables_chat
    (GEMINI_API_KEY : option string)
    (new_client : option string → outcome Client) (w : World) :
  let used_key :=
    match GEMINI_API_KEY with
    | Some EmptyString | None => None
    | Some key => Some key
    end in
  match new_client used_key with
  | Returned c =>
      init_client GEMINI_API_KEY new_client w = (Returned (Some c), w)
  | Raised e =>
      init_client GEMINI_API_KEY new_client w
      = (Returned None,
         mkWorld (requests w) (slept w)
                 (stdout w ++ ["Failed to initialize Gemini Client: " +:+ e]))
      ∧ ∀ data w', chatbot None data w' = (Returned not_initialized, w')
  end.
Proof.
  cbv zeta. unfold init_client, try_except, mbind, M_bind.
  destruct GEMINI_API_KEY as [[|c key]|]; cbn [PyStr.truthy];
    destruct (new_client _) as [cl|e]; try done.
  all: by destruct w.
Qed.

(** ** The scenarios of the specification *)

Example predict_mock :
  predict_career_from_skills mock_df "Programming, AI" 1
  = [mkResult (Some "Software Engineer") (Some "Technology")
              (Some "Bachelor's in CS") (Some 2)].
Proof. vm_compute. reflexivity. Qed.

Example rows_mock :
  get_skills_for_category mock_df "technology"
  = ["Programming, AI, Video Games, Robotics, Coding, Reading"]
  ∧ get_skills_for_category mock_df "Technology"
    = get_skills_for_category mock_df "technology".
Proof. split; vm_compute; reflexivity. Qed.

Example extract_mock :
  (analyze_resume elements mock_df "I love coding and reading books").2
  = mkResult (Some "Software Engineer") (Some "Technology")
             (Some "Bachelor's in CS") (Some 2).
Proof. vm_compute. reflexivity. Qed.

Example chat_without_client :
  chat_with_gemini None "hello" world0 = (Returned not_initialized, world0).
Proof. reflexivity. Qed.

Example chat_always_failing :
  chat_with_gemini (Some (λ _ _, Raised "quota")) "hello" world0
  = (Returned retries_exhausted,
     mkWorld 3 [1; 2]
       ["Gemini chat error (Attempt 1/3): quota. Retrying in 1s.";
        "Gemini chat error (Attempt 2/3): quota. Retrying in 2s.";
        "Gemini chat error: quota"]).
Proof. vm_compute. reflexivity. Qed.

Example load_missing_file :
  load_dataset (Raised "No such file or directory") world0
  = (Returned mock_df,
     mkWorld 0 []
       ["Error loading CSV at data/career_dataset_cleaned.csv: No such file or directory. Using a mock DataFrame."]).
Proof. vm_compute. reflexivity. Qed.

Example categories_mock :
  get_categories mock_df = ["Education"; "Healthcare"; "Technology"].
Proof. vm_compute. reflexivity. Qed.
